(** * The chat gateway (src/chat/chat.gateway.ts)

    A shallow embedding of [ChatGateway]: its two arrays, [users] and
    [groups], the socket.io calls it makes, and its event handlers.  Arrays
    are lists in array order; [Array.prototype.find] is stdpp's [list_find]
    (first match, with its index, so that a mutation of the found object is
    an update of the array at that index); [filter], [push], [includes] and
    [map] are [filter], [++ [_]], membership and [<$>]. *)

From stdpp Require Import base decidable option list sets strings.

Local Open Scope string_scope.
Local Open Scope list_scope.

(** ** Data model *)

(** [interface User] *)
Record User := mkUser {
  id : string;
  username : string;
  socketId : string;
}.

(** [interface Group]; [members] is an array of usernames. *)
Record Group := mkGroup {
  name : string;
  members : list string;
}.

(** The two private fields of [ChatGateway]. *)
Record ChatGateway := mkGateway {
  users : list User;
  groups : list Group;
}.

(** [private users: User[] = []; private groups: Group[] = [];] *)
Definition initial : ChatGateway := mkGateway [] [].

#[global] Instance User_eq_dec : EqDecision User.
Proof. solve_decision. Defined.
#[global] Instance Group_eq_dec : EqDecision Group.
Proof. solve_decision. Defined.
#[global] Instance ChatGateway_eq_dec : EqDecision ChatGateway.
Proof. solve_decision. Defined.

(** ** What the gateway asks of socket.io *)

(** The objects passed to [emit]. *)
Inductive Payload :=
| PrivateMessageBody (from message timestamp : string)
| GroupNotificationBody (group message timestamp : string)
| GroupMessageBody (group from message timestamp : string).

(** [this.server.to(room).emit(event, payload)], [client.join(room)] and
    [client.leave(room)], in the order the handler issues them.  The room of a
    private message is the recipient's socket id; the room of a group is
    ["group:" +:+ groupName].  ([console.log] lines are not modelled.) *)
Inductive Effect :=
| Emit (room event : string) (payload : Payload)
| Join (client room : string)
| Leave (client room : string).

(** The values the handlers return to the caller. *)
Inductive Response :=
| Ack (success : bool) (message : string)
| JoinAck (success : bool) (message : string) (members : list string)
| UsersReply (users : list string)
| GroupsReply (groups : list (string * nat))
| DetailsAck (success : bool) (group : Group).

(** The [success] field of a response; the two listing replies have none. *)
Definition success_of (r : Response) : option bool :=
  match r with
  | Ack s _ | JoinAck s _ _ | DetailsAck s _ => Some s
  | UsersReply _ | GroupsReply _ => None
  end.

Definition is_failure (r : Response) : Prop := success_of r = Some false.

(** ** Lookups *)

(** [this.users.find(user => user.socketId === client.id)] *)
Definition findBySocket (client : string) (us : list User) : option (nat * User) :=
  list_find (λ user, socketId user = client) us.

(** [this.users.find(user => user.username === username)] *)
Definition findByUsername (uname : string) (us : list User) : option (nat * User) :=
  list_find (λ user, username user = uname) us.

(** [this.groups.find(g => g.name === groupName)] *)
Definition findGroup (groupName : string) (gs : list Group) : option (nat * Group) :=
  list_find (λ g, name g = groupName) gs.

(** [`group:${groupName}`] *)
Definition roomOf (groupName : string) : string := "group:" +:+ groupName.

(** [members.filter(member => member !== uname)] *)
Definition without (uname : string) (ms : list string) : list string :=
  filter (λ member, member ≠ uname) ms.

(** ** Handlers *)

(** [handleConnection] only logs. *)
Definition handleConnection (client : string) (st : ChatGateway) : ChatGateway := st.

Definition handleDisconnect (client : string) (st : ChatGateway) : ChatGateway :=
  match findBySocket client (users st) with
  | Some (_, user) =>
      mkGateway
        (filter (λ u, socketId u ≠ client) (users st))
        ((λ group, mkGroup (name group) (without (username user) (members group)))
           <$> groups st)
  | None => st
  end.

(** [uid] is the string [generateUserId()] returns ([Math.random] based). *)
Definition handleRegister (uid uname client : string) (st : ChatGateway)
  : ChatGateway * Response * list Effect :=
  match findByUsername uname (users st) with
  | Some (i, existingUser) =>
      if decide (socketId existingUser ≠ client) then
        (mkGateway
           (<[i := mkUser (id existingUser) (username existingUser) client]> (users st))
           (groups st),
         Ack true "Reconnected successfully", [])
      else (st, Ack false "Username already taken", [])
  | None =>
      (mkGateway (users st ++ [mkUser uid uname client]) (groups st),
       Ack true "Registered successfully", [])
  end.

(** [now] is the string [new Date().toISOString()] returns. *)
Definition handlePrivateMessage (to message now client : string) (st : ChatGateway)
  : ChatGateway * Response * list Effect :=
  match findBySocket client (users st) with
  | None => (st, Ack false "You are not registered", [])
  | Some (_, sender) =>
      match findByUsername to (users st) with
      | None => (st, Ack false "Recipient not found", [])
      | Some (_, recipient) =>
          (st, Ack true "Message sent",
           [Emit (socketId recipient) "privateMessage"
                 (PrivateMessageBody (username sender) message now)])
      end
  end.

Definition handleJoinGroup (groupName now client : string) (st : ChatGateway)
  : ChatGateway * Response * list Effect :=
  match findBySocket client (users st) with
  | None => (st, Ack false "You are not registered", [])
  | Some (_, user) =>
      (* find or create the group: [i] is its place in the array *)
      let '(i, group, gs) :=
        match findGroup groupName (groups st) with
        | Some (i, group) => (i, group, groups st)
        | None =>
            let group := mkGroup groupName [] in
            (length (groups st), group, groups st ++ [group])
        end in
      let members' :=
        if decide (username user ∈ members group) then members group
        else members group ++ [username user] in
      (mkGateway (users st) (<[i := mkGroup (name group) members']> gs),
       JoinAck true "Joined group successfully" members',
       [Join client (roomOf groupName);
        Emit (roomOf groupName) "groupNotification"
             (GroupNotificationBody groupName
                (username user +:+ " joined the group") now)])
  end.

Definition handleLeaveGroup (groupName now client : string) (st : ChatGateway)
  : ChatGateway * Response * list Effect :=
  match findBySocket client (users st) with
  | None => (st, Ack false "You are not registered", [])
  | Some (_, user) =>
      match findGroup groupName (groups st) with
      | None => (st, Ack false "Group not found", [])
      | Some (i, group) =>
          (mkGateway (users st)
             (<[i := mkGroup (name group) (without (username user) (members group))]>
                (groups st)),
           Ack true "Left group successfully",
           [Leave client (roomOf groupName);
            Emit (roomOf groupName) "groupNotification"
                 (GroupNotificationBody groupName
                    (username user +:+ " left the group") now)])
      end
  end.

Definition handleGroupMessage (group message now client : string) (st : ChatGateway)
  : ChatGateway * Response * list Effect :=
  match findBySocket client (users st) with
  | None => (st, Ack false "You are not registered", [])
  | Some (_, sender) =>
      match findGroup group (groups st) with
      | None => (st, Ack false "Group not found", [])
      | Some (_, g) =>
          if decide (username sender ∈ members g) then
            (st, Ack true "Group message sent",
             [Emit (roomOf group) "groupMessage"
                   (GroupMessageBody group (username sender) message now)])
          else (st, Ack false "You are not a member of this group", [])
      end
  end.

Definition handleGetUsers (st : ChatGateway) : ChatGateway * Response * list Effect :=
  (st, UsersReply (username <$> users st), []).

Definition handleGetGroups (st : ChatGateway) : ChatGateway * Response * list Effect :=
  (st, GroupsReply ((λ g, (name g, length (members g))) <$> groups st), []).

Definition handleGetGroupDetails (groupName : string) (st : ChatGateway)
  : ChatGateway * Response * list Effect :=
  match findGroup groupName (groups st) with
  | None => (st, Ack false "Group not found", [])
  | Some (_, group) => (st, DetailsAck true (mkGroup (name group) (members group)), [])
  end.

(** ** Events *)

(** The eight subscribed messages, each with the values the handler draws
    from its environment ([uid], [now]). *)
Inductive Request :=
| Register (uid uname : string)
| PrivateMessage (to message now : string)
| JoinGroup (groupName now : string)
| LeaveGroup (groupName now : string)
| GroupMessage (group message now : string)
| GetUsers
| GetGroups
| GetGroupDetails (groupName : string).

(** The [@SubscribeMessage] dispatch. *)
Definition route (client : string) (r : Request) (st : ChatGateway)
  : ChatGateway * Response * list Effect :=
  match r with
  | Register uid uname => handleRegister uid uname client st
  | PrivateMessage to message now => handlePrivateMessage to message now client st
  | JoinGroup groupName now => handleJoinGroup groupName now client st
  | LeaveGroup groupName now => handleLeaveGroup groupName now client st
  | GroupMessage group message now => handleGroupMessage group message now client st
  | GetUsers => handleGetUsers st
  | GetGroups => handleGetGroups st
  | GetGroupDetails groupName => handleGetGroupDetails groupName st
  end.

(** What socket.io delivers to the gateway. *)
Inductive Event :=
| Connection (client : string)
| Message (client : string) (r : Request)
| Disconnection (client : string).

Definition step (ev : Event) (st : ChatGateway) : ChatGateway :=
  match ev with
  | Connection client => handleConnection client st
  | Message client r => (route client r st).1.1
  | Disconnection client => handleDisconnect client st
  end.

(** The events are handled one after the other. *)
Definition run (evs : list Event) (st : ChatGateway) : ChatGateway :=
  foldl (λ s ev, step ev s) st evs.

Inductive reachable : ChatGateway → Prop :=
| reachable_initial : reachable initial
| reachable_step st ev : reachable st → reachable (step ev st).

(** ** Predicates of the claims *)

Definition unique_usernames (st : ChatGateway) : Prop :=
  NoDup (username <$> users st).

Definition unique_sockets (st : ChatGateway) : Prop :=
  NoDup (socketId <$> users st).

Definition no_duplicate_members (st : ChatGateway) : Prop :=
  Forall (λ g, NoDup (members g)) (groups st).

(** [c] owns a session named [u]. *)
Definition owns (st : ChatGateway) (c u : string) : Prop :=
  ∃ s, s ∈ users st ∧ socketId s = c ∧ username s = u.

(** [u] is in no group's member list. *)
Definition in_no_group (st : ChatGateway) (u : string) : Prop :=
  Forall (λ g, u ∉ members g) (groups st).

(** The [name] fields of the registry, in array order. *)
Definition groupNames (st : ChatGateway) : list string := name <$> groups st.

(** ** The user id and the kinds of request *)

(** [Math.random().toString(36).substring(2, 15)], where [random36] is the
    string [Math.random().toString(36)] evaluates to: [substring(2, 15)]
    keeps the characters at positions 2 to 14, as far as they exist.  Its
    result is the [uid] that [handleRegister] is given. *)
Definition generateUserId (random36 : string) : string :=
  String.substring 2 13 random36.

(** The requests whose handler begins with the lookup of the caller. *)
Definition needs_session (r : Request) : bool :=
  match r with
  | PrivateMessage _ _ _ | JoinGroup _ _ | LeaveGroup _ _ | GroupMessage _ _ _ => true
  | Register _ _ | GetUsers | GetGroups | GetGroupDetails _ => false
  end.

(** The usernames of the sessions, in array order: what [handleGetUsers]
    replies. *)
Definition usernames (st : ChatGateway) : list string := username <$> users st.

(** ** Sample traffic

    Event sequences the handlers are run on below. *)

(** Alice and bob register, each from a socket of their own. *)
Definition alice_then_bob : list Event :=
  [Message "c1" (Register "u1" "alice"); Message "c2" (Register "u2" "bob")].

(** One connection registers two names. *)
Definition two_names_one_socket : list Event :=
  [Message "c1" (Register "u1" "alice"); Message "c1" (Register "u2" "bob")].

(** Bob joins a group from [c2]; then [c1], which already owns alice's
    session, registers as bob and takes his session over. *)
Definition takeover : list Event :=
  [Message "c1" (Register "u1" "alice");
   Message "c2" (Register "u2" "bob");
   Message "c2" (JoinGroup "g" "t1");
   Message "c1" (Register "u3" "bob")].

(** One connection registers as alice and then as bob; carol is elsewhere. *)
Definition two_names_and_carol : list Event :=
  two_names_one_socket ++ [Message "c2" (Register "u3" "carol")].

(** Alice registers and joins [g]. *)
Definition alice_joins : list Event :=
  [Message "c1" (Register "u1" "alice"); Message "c1" (JoinGroup "g" "t1")].

(** Alice and bob register; bob joins [g]. *)
Definition bob_in_g : list Event :=
  alice_then_bob ++ [Message "c2" (JoinGroup "g" "t1")].

(** Alice creates [g] by joining it, leaves it, and disconnects. *)
Definition alice_comes_and_goes : list Event :=
  alice_joins ++ [Message "c1" (LeaveGroup "g" "t2"); Disconnection "c1"].

(** The scenario of the specification: alice and bob register and join [g1]. *)
Definition scenario : list Event :=
  [Message "ca" (Register "1" "alice");
   Message "cb" (Register "2" "bob");
   Message "ca" (JoinGroup "g1" "t1");
   Message "cb" (JoinGroup "g1" "t2")].

(** ** Lemmas on the lookups and the array updates *)

Section Lookups.
Context {A : Type} (P : A → Prop) `{!∀ x, Decision (P x)}.

Lemma list_find_elem (l : list A) i x :
  list_find P l = Some (i, x) → l !! i = Some x ∧ P x.
Proof. rewrite list_find_Some. tauto. Qed.

Lemma list_find_absent (l : list A) :
  list_find P l = None ↔ ∀ x, x ∈ l → ¬ P x.
Proof. rewrite list_find_None, Forall_forall. done. Qed.

End Lookups.

Lemma run_app evs1 evs2 st : run (evs1 ++ evs2) st = run evs2 (run evs1 st).
Proof. unfold run. apply foldl_app. Qed.

Lemma reachable_run evs st : reachable st → reachable (run evs st).
Proof.
  revert st. induction evs as [|ev evs IH]; intros st Hst; [done|].
  simpl. apply IH. by constructor.
Qed.

Lemma reachable_iff_run st : reachable st ↔ ∃ evs, st = run evs initial.
Proof.
  split.
  - induction 1 as [|st ev _ [evs ->]].
    + by exists [].
    + exists (evs ++ [ev]). by rewrite run_app.
  - intros [evs ->]. apply reachable_run. constructor.
Qed.

(** Unfold a handler down to its lookups, then split on what they return. *)
Ltac unfold_handlers :=
  unfold route, handleRegister, handlePrivateMessage, handleJoinGroup,
    handleLeaveGroup, handleGroupMessage, handleGetUsers, handleGetGroups,
    handleGetGroupDetails, handleDisconnect, handleConnection in *.

Ltac split_lookups :=
  repeat match goal with
    | |- context [match ?o with Some _ => _ | None => _ end] =>
        let E := fresh "Efind" in destruct o as [[? ?]|] eqn:E
    | |- context [decide ?P] => destruct (decide P)
    end; simpl.

(** *** The users array *)

Lemma fmap_username_reattach (us : list User) i e c :
  us !! i = Some e →
  username <$> <[i := mkUser (id e) (username e) c]> us = username <$> us.
Proof.
  intros Hi. rewrite list_fmap_insert. simpl.
  apply list_insert_id. by rewrite list_lookup_fmap, Hi.
Qed.

Lemma fmap_filter_NoDup {A B} (f : A → B) (P : A → Prop) `{!∀ x, Decision (P x)}
    (l : list A) :
  NoDup (f <$> l) → NoDup (f <$> filter P l).
Proof.
  intros Hnd. eapply sublist_NoDup; [exact Hnd|].
  apply fmap_sublist, sublist_filter.
Qed.

Lemma handleRegister_unique_usernames uid uname c st :
  unique_usernames st → unique_usernames (handleRegister uid uname c st).1.1.
Proof.
  unfold unique_usernames, handleRegister, findByUsername. intros Hnd.
  split_lookups; [| done |].
  - apply list_find_elem in Efind as [Hi _].
    by rewrite (fmap_username_reattach _ _ _ _ Hi).
  - rewrite fmap_app. apply NoDup_app. split_and!; [done | | apply NoDup_singleton].
    intros x (s & -> & Hs)%list_elem_of_fmap. simpl. rewrite list_elem_of_singleton.
    intros Heq. by eapply (proj1 (list_find_absent _ _) Efind).
Qed.

Lemma step_unique_usernames ev st :
  unique_usernames st → unique_usernames (step ev st).
Proof.
  intros Hnd. destruct ev as [c|c r|c]; simpl.
  - done.
  - destruct r; try apply handleRegister_unique_usernames; try done;
      unfold_handlers; split_lookups; done.
  - unfold handleDisconnect. split_lookups; [|done].
    by apply fmap_filter_NoDup.
Qed.

Lemma reachable_unique_usernames st : reachable st → unique_usernames st.
Proof.
  induction 1 as [|st ev _ IH]; [apply NoDup_nil_2 | by apply step_unique_usernames].
Qed.

(** Under unique usernames the lookup by name finds a session exactly when
    the array holds it. *)
Lemma findByUsername_unique (us : list User) (s : User) :
  NoDup (username <$> us) →
  s ∈ us → ∃ i, findByUsername (username s) us = Some (i, s).
Proof.
  intros Hnd Hs.
  destruct (list_find_elem_of (λ u, username u = username s) us s Hs eq_refl)
    as [[i s'] Hfind].
  exists i. unfold findByUsername. rewrite Hfind. do 2 f_equal.
  apply list_find_elem in Hfind as [Hi Hname].
  apply list_elem_of_lookup in Hs as [j Hj].
  assert (i = j) as ->; [|congruence].
  eapply NoDup_lookup; [exact Hnd | |]; rewrite list_lookup_fmap.
  - by rewrite Hi.
  - by rewrite Hj, Hname.
Qed.

(** *** The groups array *)

(** The object the group lookup returns is mutated in place: its name, and
    so the names of the array, stay as they are. *)
Lemma fmap_name_update (gs : list Group) i g ms :
  gs !! i = Some g →
  name <$> <[i := mkGroup (name g) ms]> gs = name <$> gs.
Proof.
  intros Hi. rewrite list_fmap_insert. simpl.
  apply list_insert_id. by rewrite list_lookup_fmap, Hi.
Qed.

(** A group that was just pushed sits at index [length gs]. *)
Lemma insert_pushed {A} (l : list A) (x y : A) :
  <[length l := y]> (l ++ [x]) = l ++ [y].
Proof.
  rewrite insert_app_r_alt by lia. by rewrite Nat.sub_diag.
Qed.

Lemma without_NoDup u (ms : list string) : NoDup ms → NoDup (without u ms).
Proof. apply NoDup_filter. Qed.

Lemma without_absent u (ms : list string) : u ∉ without u ms.
Proof. unfold without. rewrite list_elem_of_filter. tauto. Qed.

Lemma without_not_member u (ms : list string) : u ∉ ms → without u ms = ms.
Proof.
  intros Hu. unfold without. induction ms as [|m ms IH]; [done|].
  apply not_elem_of_cons in Hu as [Hne Hu].
  rewrite filter_cons_True by done. by rewrite IH.
Qed.

Lemma handleJoinGroup_groups g now c st i user :
  findBySocket c (users st) = Some (i, user) →
  groups (handleJoinGroup g now c st).1.1 =
    match findGroup g (groups st) with
    | Some (j, group) =>
        if decide (username user ∈ members group) then groups st
        else <[j := mkGroup (name group) (members group ++ [username user])]> (groups st)
    | None => groups st ++ [mkGroup g [username user]]
    end.
Proof.
  intros Hc. unfold handleJoinGroup. rewrite Hc.
  destruct (findGroup g (groups st)) as [[j group]|] eqn:Hg; simpl.
  - apply list_find_elem in Hg as [Hj _].
    destruct (decide _); [|done]. apply list_insert_id. by destruct group.
  - apply insert_pushed.
Qed.

Lemma step_no_duplicate_members ev st :
  no_duplicate_members st → no_duplicate_members (step ev st).
Proof.
  unfold no_duplicate_members. intros Hnd. destruct ev as [c|c r|c]; simpl.
  - done.
  - destruct r; simpl; try (unfold_handlers; split_lookups; done).
    + (* joinGroup *)
      destruct (findBySocket c (users st)) as [[i user]|] eqn:Hc;
        [|by unfold handleJoinGroup; rewrite Hc].
      rewrite (handleJoinGroup_groups _ _ _ _ _ _ Hc).
      destruct (findGroup groupName (groups st)) as [[j group]|] eqn:Hg.
      * destruct (decide _) as [|Hnew]; [done|].
        apply list_find_elem in Hg as [Hj _].
        apply Forall_insert; [done|]. simpl.
        apply NoDup_app. split_and!.
        -- by eapply (Forall_lookup_1 _ _ _ _ Hnd).
        -- intros x Hx ->%list_elem_of_singleton. done.
        -- apply NoDup_singleton.
      * apply Forall_app. split; [done|]. repeat constructor. apply not_elem_of_nil.
    + (* leaveGroup *)
      unfold handleLeaveGroup, findGroup. split_lookups; [|done..].
      apply list_find_elem in Efind0 as [Hj _].
      apply Forall_insert; [done|]. simpl. apply without_NoDup.
      by eapply (Forall_lookup_1 _ _ _ _ Hnd).
  - unfold handleDisconnect. split_lookups; [|done].
    apply Forall_fmap. eapply Forall_impl; [exact Hnd|].
    intros g Hg. simpl. by apply without_NoDup.
Qed.

Lemma reachable_no_duplicate_members st : reachable st → no_duplicate_members st.
Proof.
  induction 1 as [|st ev _ IH]; [constructor | by apply step_no_duplicate_members].
Qed.

(** No handler takes a name out of the registry, or moves one. *)
Lemma step_groupNames ev st : groupNames st `prefix_of` groupNames (step ev st).
Proof.
  unfold groupNames. destruct ev as [c|c r|c]; simpl.
  - done.
  - destruct r; simpl; try (unfold_handlers; split_lookups; done).
    + destruct (findBySocket c (users st)) as [[i user]|] eqn:Hc;
        [|by unfold handleJoinGroup; rewrite Hc].
      rewrite (handleJoinGroup_groups _ _ _ _ _ _ Hc).
      destruct (findGroup groupName (groups st)) as [[j group]|] eqn:Hg.
      * destruct (decide _); [done|].
        apply list_find_elem in Hg as [Hj _].
        by rewrite (fmap_name_update _ _ _ _ Hj).
      * rewrite fmap_app. by apply prefix_app_r.
    + unfold handleLeaveGroup, findGroup. split_lookups; [|done..].
      apply list_find_elem in Efind0 as [Hj _].
      by rewrite (fmap_name_update _ _ _ _ Hj).
  - unfold handleDisconnect. split_lookups; [|done].
    rewrite <-list_fmap_compose. done.
Qed.

Lemma run_groupNames evs st : groupNames st `prefix_of` groupNames (run evs st).
Proof.
  revert st. induction evs as [|ev evs IH]; intros st; [done|].
  simpl. etrans; [apply step_groupNames | apply IH].
Qed.

(** Closes a decidable closed goal by evaluating its decision procedure. *)
Ltac by_evaluation := apply (bool_decide_unpack _); vm_compute; reflexivity.

(** ** Registration *)

(** C1: in a state with one session per username (every reachable state is
    one), [handleRegister] is decided by the sessions named [uname].  With
    none, a session [{id; username; socketId := c}] is pushed and the
    acknowledgment is the successful "Registered" one.  With one whose socket
    differs from [c], the socket of that very session is overwritten with [c],
    the array keeps its length, and the acknowledgment is the successful
    "Reconnected" one.  With one whose socket is [c], the acknowledgment is
    the failure "Username already taken" and the state is the one before. *)
Theorem C1_handleRegister_decision_rule uid uname c st :
  unique_usernames st →
  ((∀ s, s ∈ users st → username s ≠ uname) →
     handleRegister uid uname c st =
       (mkGateway (users st ++ [mkUser uid uname c]) (groups st),
        Ack true "Registered successfully", []))
  ∧ (∀ s, s ∈ users st → username s = uname → socketId s ≠ c →
       ∃ i st',
         users st !! i = Some s
         ∧ handleRegister uid uname c st = (st', Ack true "Reconnected successfully", [])
         ∧ users st' = <[i := mkUser (id s) uname c]> (users st)
         ∧ length (users st') = length (users st)
         ∧ groups st' = groups st)
  ∧ (∀ s, s ∈ users st → username s = uname → socketId s = c →
       handleRegister uid uname c st = (st, Ack false "Username already taken", [])).
Proof.
  intros Hnd. split_and!.
  - intros Hnone. unfold handleRegister.
    by rewrite (proj2 (list_find_absent _ _) Hnone : findByUsername _ _ = None).
  - intros s Hs <- Hc.
    destruct (findByUsername_unique _ _ Hnd Hs) as [i Hfind].
    exists i. eexists. unfold handleRegister. rewrite Hfind.
    rewrite decide_True by done.
    split_and!; [by apply list_find_elem in Hfind as [? _] | done | done | | done].
    simpl. apply length_insert.
  - intros s Hs <- Hc.
    destruct (findByUsername_unique _ _ Hnd Hs) as [i Hfind].
    unfold handleRegister. rewrite Hfind. by rewrite decide_False by auto.
Qed.

Lemma C1_handleRegister_decision_rule_witness :
  unique_usernames (run alice_then_bob initial)
  ∧ handleRegister "u3" "bob" "c2" (run alice_then_bob initial) =
      (run alice_then_bob initial, Ack false "Username already taken", []).
Proof.
  split; [by_evaluation|].
  refine (proj2 (proj2 (C1_handleRegister_decision_rule "u3" "bob" "c2"
                          (run alice_then_bob initial) _)) (mkUser "u2" "bob" "c2") _ _ _).
  - by_evaluation.
  - by_evaluation.
  - reflexivity.
  - reflexivity.
Defined.

(** ** Uniqueness *)

(** C2, as amended: every reachable state holds at most one session per
    username. *)
Theorem C2_unique_usernames st : reachable st → unique_usernames st.
Proof. apply reachable_unique_usernames. Qed.

Lemma C2_unique_usernames_witness :
  reachable (run two_names_one_socket initial)
  ∧ unique_usernames (run two_names_one_socket initial).
Proof.
  assert (reachable (run two_names_one_socket initial)) as Hreach.
  { apply reachable_run. constructor. }
  split; [exact Hreach | exact (C2_unique_usernames _ Hreach)].
Defined.

(** C2 fails as stated: the socket is not part of the registration check, so
    a connection that registers two names owns two sessions.  The state below
    is reachable and two of its sessions have the socket [c1]. *)
Lemma C2_counterexample :
  reachable (run two_names_one_socket initial)
  ∧ users (run two_names_one_socket initial) =
      [mkUser "u1" "alice" "c1"; mkUser "u2" "bob" "c1"]
  ∧ ¬ unique_sockets (run two_names_one_socket initial).
Proof.
  split_and!.
  - apply reachable_run. constructor.
  - reflexivity.
  - by_evaluation.
Qed.

(** ** Disconnection *)

Example takeover_state :
  run takeover initial =
    mkGateway [mkUser "u1" "alice" "c1"; mkUser "u2" "bob" "c1"] [mkGroup "g" ["bob"]].
Proof. reflexivity. Qed.

Lemma handleDisconnect_no_session c st s :
  s ∈ users (handleDisconnect c st) → socketId s ≠ c.
Proof.
  unfold handleDisconnect.
  destruct (findBySocket c (users st)) as [[i user]|] eqn:Hfind; simpl.
  - by intros [? _]%list_elem_of_filter.
  - intros Hs. by apply (proj1 (list_find_absent _ _) Hfind).
Qed.

(** What the cascade does reach: no session of [c] is left, and the name of
    the session the lookup of [c] finds is taken out of every group. *)
Lemma handleDisconnect_found_session st c i s :
  findBySocket c (users st) = Some (i, s) →
  (∀ s', s' ∈ users (handleDisconnect c st) → socketId s' ≠ c)
  ∧ findBySocket c (users (handleDisconnect c st)) = None
  ∧ in_no_group (handleDisconnect c st) (username s).
Proof.
  intros Hfind. split_and!.
  - intros s'. apply handleDisconnect_no_session.
  - apply list_find_absent. intros s'. apply handleDisconnect_no_session.
  - unfold in_no_group, handleDisconnect. rewrite Hfind. simpl.
    apply Forall_fmap, Forall_true. intros g. simpl. apply without_absent.
Qed.

(** C3: the cascade on disconnect misses a case.  The claim wants every name
    of a session of [c] out of every group once [c] has disconnected.  In the
    reachable state [run takeover initial] the connection [c1] owns the
    sessions of alice and of bob, and bob is a member of [g];
    [handleDisconnect c1] removes both sessions from the users, so that no
    session of [c1] is left, but filters the groups by the name of the first
    one only: bob, who has no session any more, is still a member of [g]. *)
Theorem C3_disconnect_leaves_member :
  reachable (run takeover initial)
  ∧ run takeover initial =
      mkGateway [mkUser "u1" "alice" "c1"; mkUser "u2" "bob" "c1"] [mkGroup "g" ["bob"]]
  ∧ owns (run takeover initial) "c1" "bob"
  ∧ handleDisconnect "c1" (run takeover initial) = mkGateway [] [mkGroup "g" ["bob"]]
  ∧ (∀ s, s ∈ users (handleDisconnect "c1" (run takeover initial)) → socketId s ≠ "c1")
  ∧ ¬ in_no_group (handleDisconnect "c1" (run takeover initial)) "bob".
Proof.
  split_and!.
  - apply reachable_run. constructor.
  - reflexivity.
  - exists (mkUser "u2" "bob" "c1"). split_and!; [by_evaluation | done | done].
  - reflexivity.
  - intros s. apply handleDisconnect_no_session.
  - by_evaluation.
Qed.

(** C10: a connection that owns no session disconnects without any change
    to the users or to the groups. *)
Theorem C10_disconnect_unregistered st c :
  (∀ s, s ∈ users st → socketId s ≠ c) → handleDisconnect c st = st.
Proof.
  intros Hnone. unfold handleDisconnect.
  by rewrite (proj2 (list_find_absent _ _) Hnone : findBySocket _ _ = None).
Qed.

Lemma C10_disconnect_unregistered_witness :
  (∀ s, s ∈ users (run takeover initial) → socketId s ≠ "c2")
  ∧ handleDisconnect "c2" (run takeover initial) = run takeover initial.
Proof.
  assert (∀ s, s ∈ users (run takeover initial) → socketId s ≠ "c2") as Hnone.
  { apply Forall_forall. by_evaluation. }
  split; [exact Hnone | exact (C10_disconnect_unregistered _ _ Hnone)].
Defined.

(** ** Private messages *)

(** C4, as amended: when the lookup of the caller by socket finds the session
    [A] and the lookup of [to] by username finds the session [B],
    [handlePrivateMessage] leaves the state as it is, acknowledges success and
    emits one event and no more: a "privateMessage" to the room [socketId B],
    from [username A], with the given message. *)
Theorem C4_private_message_routing st c to message now i A j B :
  findBySocket c (users st) = Some (i, A) →
  findByUsername to (users st) = Some (j, B) →
  handlePrivateMessage to message now c st =
    (st, Ack true "Message sent",
     [Emit (socketId B) "privateMessage" (PrivateMessageBody (username A) message now)])
  ∧ B ∈ users st ∧ username B = to
  ∧ A ∈ users st ∧ socketId A = c.
Proof.
  intros HA HB. unfold handlePrivateMessage. rewrite HA, HB.
  apply list_find_elem in HA as [HA ?], HB as [HB ?].
  split_and!; [done | by eapply list_elem_of_lookup_2 | done
              | by eapply list_elem_of_lookup_2 | done].
Qed.

Lemma C4_private_message_routing_witness :
  findBySocket "c1" (users (run two_names_and_carol initial))
    = Some (0, mkUser "u1" "alice" "c1")
  ∧ findByUsername "carol" (users (run two_names_and_carol initial))
    = Some (2, mkUser "u3" "carol" "c2")
  ∧ handlePrivateMessage "carol" "hi" "t" "c1" (run two_names_and_carol initial) =
      (run two_names_and_carol initial, Ack true "Message sent",
       [Emit "c2" "privateMessage" (PrivateMessageBody "alice" "hi" "t")]).
Proof.
  split_and!; [reflexivity | reflexivity |].
  exact (proj1 (C4_private_message_routing (run two_names_and_carol initial)
                  "c1" "carol" "hi" "t" 0 (mkUser "u1" "alice" "c1")
                  2 (mkUser "u3" "carol" "c2") eq_refl eq_refl)).
Defined.

(** C4 fails as stated: in the reachable state [run two_names_and_carol
    initial] the caller [c1] has a session named bob and carol has a session,
    yet the event carol receives is from alice, the first session of [c1]. *)
Lemma C4_counterexample :
  reachable (run two_names_and_carol initial)
  ∧ owns (run two_names_and_carol initial) "c1" "bob"
  ∧ (∃ B, B ∈ users (run two_names_and_carol initial) ∧ username B = "carol")
  ∧ ∀ B, (handlePrivateMessage "carol" "hi" "t" "c1" (run two_names_and_carol initial)).2
         ≠ [Emit (socketId B) "privateMessage" (PrivateMessageBody "bob" "hi" "t")].
Proof.
  split_and!.
  - apply reachable_run. constructor.
  - exists (mkUser "u2" "bob" "c1"). split_and!; [by_evaluation | done | done].
  - exists (mkUser "u3" "carol" "c2"). split; [by_evaluation | done].
  - intros B. vm_compute. discriminate.
Qed.

(** ** Group messages *)



(** ** Joining and leaving groups *)

Lemma handleJoinGroup_reply g now c st i user :
  findBySocket c (users st) = Some (i, user) →
  (handleJoinGroup g now c st).1.2 =
    JoinAck true "Joined group successfully"
      match findGroup g (groups st) with
      | Some (_, group) =>
          if decide (username user ∈ members group) then members group
          else members group ++ [username user]
      | None => [username user]
      end.
Proof.
  intros Hc. unfold handleJoinGroup. rewrite Hc.
  by destruct (findGroup g (groups st)) as [[j group]|].
Qed.

(** After a join the group lookup finds a group that has the caller, and
    whose member list is the one the join returned. *)
Lemma handleJoinGroup_member g now c st i user :
  findBySocket c (users st) = Some (i, user) →
  ∃ j grp,
    findGroup g (groups (handleJoinGroup g now c st).1.1) = Some (j, grp)
    ∧ username user ∈ members grp
    ∧ (handleJoinGroup g now c st).1.2
        = JoinAck true "Joined group successfully" (members grp).
Proof.
  intros Hc. rewrite (handleJoinGroup_groups _ _ _ _ _ _ Hc),
    (handleJoinGroup_reply _ _ _ _ _ _ Hc).
  destruct (findGroup g (groups st)) as [[j grp]|] eqn:Hg.
  - destruct (decide (username user ∈ members grp)) as [Hin|Hout].
    + by exists j, grp.
    + exists j, (mkGroup (name grp) (members grp ++ [username user])).
      split_and!; [|set_solver|done].
      apply list_find_Some in Hg as (Hj & Hname & Hleast).
      apply list_find_Some. split_and!.
      * apply list_lookup_insert_eq. by eapply lookup_lt_Some.
      * done.
      * intros k y Hk Hlt. rewrite list_lookup_insert_ne in Hk by lia. eauto.
  - exists (length (groups st)), (mkGroup g [username user]).
    split_and!; [|set_solver|done].
    apply list_find_Some. split_and!.
    + by rewrite lookup_app_r, Nat.sub_diag.
    + done.
    + intros k y Hk Hlt. rewrite lookup_app_l in Hk by done.
      apply (proj1 (list_find_absent _ _) Hg y). by eapply list_elem_of_lookup_2.
Qed.

Lemma handleJoinGroup_users g now c st :
  users (handleJoinGroup g now c st).1.1 = users st.
Proof. unfold handleJoinGroup. by split_lookups. Qed.

(** A join by someone who is already in the group changes nothing. *)
Lemma handleJoinGroup_again g now c st i user j grp :
  findBySocket c (users st) = Some (i, user) →
  findGroup g (groups st) = Some (j, grp) →
  username user ∈ members grp →
  (handleJoinGroup g now c st).1 = (st, JoinAck true "Joined group successfully" (members grp)).
Proof.
  intros Hc Hg Hin.
  assert (groups (handleJoinGroup g now c st).1.1 = groups st) as Hgroups.
  { rewrite (handleJoinGroup_groups _ _ _ _ _ _ Hc), Hg. by rewrite decide_True. }
  pose proof (handleJoinGroup_users g now c st) as Husers.
  revert Hgroups Husers. unfold handleJoinGroup. rewrite Hc, Hg. simpl.
  rewrite decide_True by done. intros -> _. by destruct st.
Qed.

(** C6: joining is idempotent.  When a caller named [u] has joined [g], a
    join of [g] that follows at once by a caller of the same name leaves the
    whole state, and so the member list of the group and the counts
    [handleGetGroups] reports, as the first join left them, and it returns the
    member list unchanged.  In every reachable state no member list has a name
    twice. *)
Theorem C6_join_idempotent :
  (∀ st g now1 now2 c1 c2 i1 u1 i2 u2,
     findBySocket c1 (users st) = Some (i1, u1) →
     findBySocket c2 (users st) = Some (i2, u2) →
     username u1 = username u2 →
     let first := handleJoinGroup g now1 c1 st in
     let second := handleJoinGroup g now2 c2 first.1.1 in
     second.1.1 = first.1.1
     ∧ second.1.2 = first.1.2
     ∧ (handleGetGroups second.1.1).1.2 = (handleGetGroups first.1.1).1.2
     ∧ success_of second.1.2 = Some true)
  ∧ (∀ st, reachable st → no_duplicate_members st).
Proof.
  split; [|apply reachable_no_duplicate_members].
  intros st g now1 now2 c1 c2 i1 u1 i2 u2 Hc1 Hc2 Hname first second.
  destruct (handleJoinGroup_member g now1 c1 st i1 u1 Hc1)
    as (j & grp & Hg & Hin & Hreply).
  fold first in Hg, Hreply.
  assert (findBySocket c2 (users first.1.1) = Some (i2, u2)) as Hc2'.
  { unfold first. by rewrite handleJoinGroup_users. }
  rewrite Hname in Hin.
  pose proof (handleJoinGroup_again g now2 c2 first.1.1 i2 u2 j grp Hc2' Hg Hin)
    as Hsecond.
  fold second in Hsecond. rewrite Hsecond, Hreply. done.
Qed.

Lemma C6_join_idempotent_witness :
  reachable (run alice_joins initial)
  ∧ (handleJoinGroup "g" "t2" "c1" (run alice_joins initial)).1
      = (run alice_joins initial, JoinAck true "Joined group successfully" ["alice"])
  ∧ no_duplicate_members (run alice_joins initial).
Proof.
  assert (reachable (run alice_joins initial)) as Hreach.
  { apply reachable_run. constructor. }
  split_and!; [done | reflexivity |].
  exact (proj2 C6_join_idempotent _ Hreach).
Defined.

(** C7: for a registered caller, [handleLeaveGroup] answers "Group not found"
    exactly when no group has the name.  When the lookup finds a group, the
    answer is the successful one, the users are untouched, the group found is
    replaced in place by one with the same name whose members are the former
    ones other than the caller, and when the caller was not a member the state
    is the one before. *)
Theorem C7_leave_group st c g now i user :
  findBySocket c (users st) = Some (i, user) →
  let result := handleLeaveGroup g now c st in
  (result.1.2 = Ack false "Group not found" ↔ ∀ grp, grp ∈ groups st → name grp ≠ g)
  ∧ (∀ j grp, findGroup g (groups st) = Some (j, grp) →
       result.1.2 = Ack true "Left group successfully"
       ∧ users result.1.1 = users st
       ∧ groups result.1.1 =
           <[j := mkGroup (name grp) (without (username user) (members grp))]> (groups st)
       ∧ (∀ m, m ∈ without (username user) (members grp) ↔
               m ∈ members grp ∧ m ≠ username user)
       ∧ (username user ∉ members grp → result.1.1 = st)).
Proof.
  intros Hc result. subst result. unfold handleLeaveGroup. rewrite Hc. split.
  - destruct (findGroup g (groups st)) as [[j grp]|] eqn:Hg; simpl.
    + split; [done|]. intros Hnone. exfalso.
      apply list_find_elem in Hg as [Hj Hname].
      eapply Hnone; [|exact Hname]. by eapply list_elem_of_lookup_2.
    + split; [|done]. intros _. exact (proj1 (list_find_absent _ _) Hg).
  - intros j grp Hg. rewrite Hg. simpl. split_and!; [done..| |].
    + intros m. unfold without. rewrite list_elem_of_filter. tauto.
    + intros Hout. rewrite without_not_member by done.
      apply list_find_elem in Hg as [Hj _].
      rewrite list_insert_id; [by destruct st | by destruct grp].
Qed.

Lemma C7_leave_group_witness :
  findBySocket "c1" (users (run bob_in_g initial)) = Some (0, mkUser "u1" "alice" "c1")
  ∧ (handleLeaveGroup "g" "t2" "c1" (run bob_in_g initial)).1
      = (run bob_in_g initial, Ack true "Left group successfully")
  ∧ (handleLeaveGroup "h" "t2" "c1" (run bob_in_g initial)).1.2
      = Ack false "Group not found".
Proof.
  split_and!; [reflexivity | |].
  - destruct (proj2 (C7_leave_group (run bob_in_g initial) "c1" "g" "t2" 0
                       (mkUser "u1" "alice" "c1") eq_refl)
                0 (mkGroup "g" ["bob"]) eq_refl) as (Hack & _ & _ & _ & Hsame).
    apply injective_projections; [apply Hsame; by_evaluation | apply Hack].
  - apply (C7_leave_group (run bob_in_g initial) "c1" "h" "t2" 0
             (mkUser "u1" "alice" "c1") eq_refl).
    apply Forall_forall. by_evaluation.
Defined.

(** ** Acknowledgments *)

(** C8: every routed handler returns a state, a response and a list of
    effects; the response carries a [success] tag unless it is one of the two
    listings; and with a failure response the state returned is the state
    before, and nothing was emitted. *)
Theorem C8_failure_is_atomic c r st :
  ∃ st' resp out,
    route c r st = (st', resp, out)
    ∧ (is_Some (success_of resp) ∨ r = GetUsers ∨ r = GetGroups)
    ∧ (is_failure resp → st' = st ∧ users st' = users st ∧ groups st' = groups st
                         ∧ out = []).
Proof.
  destruct (route c r st) as [[st' resp] out] eqn:Hroute.
  exists st', resp, out. split; [done|].
  destruct r; unfold_handlers; unfold is_failure;
    repeat case_match; simplify_eq/=; split; eauto; try done; intros [=].
Qed.

(** ** Groups are kept *)

Example empty_group_is_listed :
  handleGetGroups (run alice_comes_and_goes initial)
    = (mkGateway [] [mkGroup "g" []], GroupsReply [("g", 0)], []).
Proof. reflexivity. Qed.

Lemma handleGetGroups_lists st g :
  g ∈ groupNames st →
  ∃ listing n, (handleGetGroups st).1.2 = GroupsReply listing ∧ (g, n) ∈ listing.
Proof.
  unfold groupNames. intros (grp & -> & Hgrp)%list_elem_of_fmap.
  eexists _, (length (members grp)). split; [done|].
  apply list_elem_of_fmap. by exists grp.
Qed.

(** C9: no event takes a group out of the registry.  The names of the
    registry after an event begin with the names before it, in the same
    order; a name of the registry is still one after any events, and
    [handleGetGroups] lists it; and so, once a join has succeeded for [g],
    whatever events follow, a group named [g] is in the registry and is
    listed. *)
Theorem C9_groups_persist :
  (∀ st ev, groupNames st `prefix_of` groupNames (step ev st))
  ∧ (∀ st evs g, g ∈ groupNames st →
       g ∈ groupNames (run evs st)
       ∧ ∃ listing n,
           (handleGetGroups (run evs st)).1.2 = GroupsReply listing ∧ (g, n) ∈ listing)
  ∧ (∀ st c g now evs,
       success_of (handleJoinGroup g now c st).1.2 = Some true →
       g ∈ groupNames (run evs (handleJoinGroup g now c st).1.1)
       ∧ ∃ listing n,
           (handleGetGroups (run evs (handleJoinGroup g now c st).1.1)).1.2
             = GroupsReply listing
           ∧ (g, n) ∈ listing).
Proof.
  assert (∀ st evs g, g ∈ groupNames st →
            g ∈ groupNames (run evs st)
            ∧ ∃ listing n,
                (handleGetGroups (run evs st)).1.2 = GroupsReply listing
                ∧ (g, n) ∈ listing) as Hkeep.
  { intros st evs g Hg.
    assert (g ∈ groupNames (run evs st)) as Hkept.
    { eapply elem_of_prefix; [exact Hg | apply run_groupNames]. }
    split; [done | by apply handleGetGroups_lists]. }
  split_and!.
  - intros st ev. apply step_groupNames.
  - exact Hkeep.
  - intros st c g now evs Hok. apply Hkeep. revert Hok.
    destruct (findBySocket c (users st)) as [[i user]|] eqn:Hc.
    + intros _.
      destruct (handleJoinGroup_member g now c st i user Hc) as (j & grp & Hg & _).
      apply list_find_elem in Hg as [Hj Hname].
      unfold groupNames. apply list_elem_of_fmap. exists grp.
      split; [done | by eapply list_elem_of_lookup_2].
    + unfold handleJoinGroup. rewrite Hc. simpl. intros [=].
Qed.

Lemma C9_groups_persist_witness :
  "g" ∈ groupNames (run alice_joins initial)
  ∧ "g" ∈ groupNames
            (run [Message "c1" (LeaveGroup "g" "t2"); Disconnection "c1"]
               (run alice_joins initial)).
Proof.
  assert ("g" ∈ groupNames (run alice_joins initial)) as Hg by by_evaluation.
  split; [exact Hg|].
  exact (proj1 (proj1 (proj2 C9_groups_persist) _ _ _ Hg)).
Defined.

(** ** The scenario of the specification, run on the model *)

Example scenario_joins :
  (handleJoinGroup "g1" "t2" "cb"
     (run [Message "ca" (Register "1" "alice"); Message "cb" (Register "2" "bob");
           Message "ca" (JoinGroup "g1" "t1")] initial)).1.2
    = JoinAck true "Joined group successfully" ["alice"; "bob"].
Proof. reflexivity. Qed.

Example scenario_group_message :
  (handleGroupMessage "g1" "hi" "t3" "ca" (run scenario initial)).2
    = [Emit "group:g1" "groupMessage" (GroupMessageBody "g1" "alice" "hi" "t3")].
Proof. reflexivity. Qed.

Example scenario_disconnect :
  (handleGetGroupDetails "g1" (handleDisconnect "cb" (run scenario initial))).1.2
    = DetailsAck true (mkGroup "g1" ["alice"]).
Proof. reflexivity. Qed.

(** * Further properties of the handlers *)

(** ** More on the first match of an array *)

Section FirstMatch.
Context {A : Type} (P : A → Prop) `{!∀ x, Decision (P x)}.

(** The found object is replaced by one that still matches. *)
Lemma list_find_insert_same (l : list A) i x y :
  list_find P l = Some (i, x) → P y → list_find P (<[i := y]> l) = Some (i, y).
Proof.
  intros (Hi & _ & Hleast)%list_find_Some Hy. apply list_find_Some. split_and!.
  - apply list_lookup_insert_eq. by eapply lookup_lt_Some.
  - done.
  - intros k z Hk Hlt. rewrite list_lookup_insert_ne in Hk by lia. eauto.
Qed.

(** An object that does not match is replaced by one that does not. *)
Lemma list_find_insert_other (l : list A) i x y :
  l !! i = Some x → ¬ P x → ¬ P y → list_find P (<[i := y]> l) = list_find P l.
Proof.
  revert i. induction l as [|z l IH]; intros [|i] Hi Hx Hy; simplify_eq/=.
  - by rewrite !decide_False by done.
  - destruct (decide (P z)); [done|]. by rewrite (IH i).
Qed.

(** A matching object is pushed onto an array without a match. *)
Lemma list_find_push (l : list A) y :
  list_find P l = None → P y → list_find P (l ++ [y]) = Some (length l, y).
Proof.
  intros Hnone Hy. apply list_find_Some. split_and!.
  - by rewrite lookup_app_r, Nat.sub_diag.
  - done.
  - intros k z Hk Hlt. rewrite lookup_app_l in Hk by done.
    apply (proj1 (list_find_absent P l) Hnone z). by eapply list_elem_of_lookup_2.
Qed.

(** An object that does not match is pushed. *)
Lemma list_find_push_other (l : list A) y :
  ¬ P y → list_find P (l ++ [y]) = list_find P l.
Proof.
  intros Hy. induction l as [|z l IH]; simpl.
  - by rewrite decide_False.
  - destruct (decide (P z)); [done|]. by rewrite IH.
Qed.

Lemma list_find_is_Some (l : list A) :
  is_Some (list_find P l) ↔ ∃ x, x ∈ l ∧ P x.
Proof.
  split.
  - intros [[i x] [Hi Hx]%list_find_elem]. exists x.
    split; [by eapply list_elem_of_lookup_2 | done].
  - intros (x & Hx & HP). by eapply list_find_elem_of.
Qed.
End FirstMatch.

(** ** Registration and the directory *)

Lemma elem_of_insert_other {A} (l : list A) i e y x :
  l !! i = Some e → x ≠ e → x ≠ y → x ∈ <[i := y]> l ↔ x ∈ l.
Proof.
  intros Hi Hxe Hxy. rewrite !list_elem_of_lookup. split; intros [k Hk].
  - apply list_lookup_insert_Some in Hk as [(_ & ? & _)|[_ Hk]]; [done | eauto].
  - exists k. rewrite list_lookup_insert_ne; [done|]. intros ->. congruence.
Qed.

Lemma unique_usernames_inj (us : list User) s1 s2 :
  NoDup (username <$> us) → s1 ∈ us → s2 ∈ us → username s1 = username s2 → s1 = s2.
Proof.
  intros Hnd [i Hi]%list_elem_of_lookup [j Hj]%list_elem_of_lookup Heq.
  assert (i = j) as ->; [|congruence].
  eapply NoDup_lookup; [exact Hnd | |]; rewrite list_lookup_fmap.
  - by rewrite Hi.
  - by rewrite Hj, Heq.
Qed.

Lemma findByUsername_None uname (us : list User) :
  findByUsername uname us = None ↔ uname ∉ username <$> us.
Proof.
  unfold findByUsername. rewrite list_find_absent, list_elem_of_fmap. split.
  - intros Hnone (s & -> & Hs). by eapply Hnone.
  - intros Hnone s Hs Hname. apply Hnone. by exists s.
Qed.

(** Whatever it answers, [handleRegister] leaves [uname] bound to [c]. *)
Lemma handleRegister_binds uid uname c st :
  ∃ i s, findByUsername uname (users (handleRegister uid uname c st).1.1) = Some (i, s)
         ∧ username s = uname ∧ socketId s = c.
Proof.
  unfold handleRegister.
  destruct (findByUsername uname (users st)) as [[i e]|] eqn:Hfind.
  - pose proof Hfind as [Hi Hname]%list_find_elem.
    destruct (decide (socketId e ≠ c)) as [Hne|Heq]; simpl.
    + exists i, (mkUser (id e) (username e) c). split_and!; [|done..].
      by apply (list_find_insert_same _ _ _ e).
    + exists i, e. split_and!; [done..|].
      by destruct (decide (socketId e = c)); [|destruct Heq].
  - simpl. exists (length (users st)), (mkUser uid uname c). split_and!; [|done..].
    by apply list_find_push.
Qed.

Lemma handleRegister_usernames uid uname c st :
  usernames (handleRegister uid uname c st).1.1 =
    if decide (uname ∈ usernames st) then usernames st else usernames st ++ [uname].
Proof.
  unfold usernames, handleRegister.
  destruct (findByUsername uname (users st)) as [[i e]|] eqn:Hfind.
  - pose proof Hfind as [Hi Hname]%list_find_elem.
    destruct (decide (uname ∈ username <$> users st)) as [_|Hout].
    + destruct (decide (socketId e ≠ c)); cbn [fst snd users]; [|done].
      by apply fmap_username_reattach.
    + destruct Hout. apply list_elem_of_fmap. exists e.
      split; [done | by eapply list_elem_of_lookup_2].
  - apply findByUsername_None in Hfind.
    destruct (decide (uname ∈ username <$> users st)); [done|].
    cbn [fst snd users]. by rewrite fmap_app.
Qed.

(** X1: after [handleRegister uid uname c], whatever the acknowledgment, the
    lookup of [uname] finds a session whose socket is [c], so the caller is
    registered: the lookup of [c] by socket finds a session too. *)
Theorem X1_register_binds_socket uid uname c st :
  (∃ i s, findByUsername uname (users (handleRegister uid uname c st).1.1) = Some (i, s)
          ∧ username s = uname ∧ socketId s = c)
  ∧ is_Some (findBySocket c (users (handleRegister uid uname c st).1.1)).
Proof.
  destruct (handleRegister_binds uid uname c st) as (i & s & Hfind & Hname & Hsock).
  split; [by exists i, s|].
  apply list_find_is_Some. exists s. split; [|done].
  apply list_find_elem in Hfind as [Hi _]. by eapply list_elem_of_lookup_2.
Qed.

(** X2: [handleRegister] never removes or reorders a name: the list
    [handleGetUsers] replies afterwards is the list before when [uname] was in
    it, and the list before with [uname] pushed otherwise.  The groups are
    left as they are and nothing is emitted. *)
Theorem X2_register_usernames uid uname c st :
  (handleGetUsers (handleRegister uid uname c st).1.1).1.2 =
    UsersReply (if decide (uname ∈ usernames st) then usernames st
                else usernames st ++ [uname])
  ∧ groups (handleRegister uid uname c st).1.1 = groups st
  ∧ (handleRegister uid uname c st).2 = [].
Proof.
  split_and!.
  - unfold handleGetUsers. simpl. f_equal. apply handleRegister_usernames.
  - unfold handleRegister. by split_lookups.
  - unfold handleRegister. by split_lookups.
Qed.

(** X3: [handleRegister uid uname c] leaves every session of another name
    alone: such a session is in the array afterwards exactly when it was in
    it before. *)
Theorem X3_register_other_sessions uid uname c st s :
  username s ≠ uname →
  s ∈ users (handleRegister uid uname c st).1.1 ↔ s ∈ users st.
Proof.
  intros Hname. unfold handleRegister.
  destruct (findByUsername uname (users st)) as [[i e]|] eqn:Hfind.
  - apply list_find_elem in Hfind as [Hi He].
    destruct (decide (socketId e ≠ c)); simpl; [|done].
    apply (elem_of_insert_other _ _ e); [done | |]; intros ->; simpl in *; congruence.
  - simpl. rewrite elem_of_app, list_elem_of_singleton.
    split; [|by left]. intros [?| ->]; [done|]. by simpl in Hname.
Qed.

Lemma X3_register_other_sessions_witness :
  username (mkUser "u1" "alice" "c1") ≠ "bob"
  ∧ mkUser "u1" "alice" "c1"
      ∈ users (handleRegister "u3" "bob" "c3" (run alice_then_bob initial)).1.1.
Proof.
  split; [done|].
  apply (X3_register_other_sessions "u3" "bob" "c3" (run alice_then_bob initial));
    [done | by_evaluation].
Defined.

(** Only [handleRegister] writes to the users array, and only
    [handleJoinGroup] and [handleLeaveGroup] write to the groups array. *)
Lemma route_users c r st :
  (∀ uid uname, r ≠ Register uid uname) → users (route c r st).1.1 = users st.
Proof.
  intros Hr. destruct r; try (exfalso; by eapply Hr);
    unfold_handlers; by split_lookups.
Qed.

Lemma route_groups c r st :
  (∀ g now, r ≠ JoinGroup g now) → (∀ g now, r ≠ LeaveGroup g now) →
  groups (route c r st).1.1 = groups st.
Proof.
  intros Hj Hl. destruct r; try (exfalso; by eapply Hj); try (exfalso; by eapply Hl);
    unfold_handlers; by split_lookups.
Qed.

Lemma handleDisconnect_users c st s :
  s ∈ users (handleDisconnect c st) ↔ s ∈ users st ∧ socketId s ≠ c.
Proof.
  unfold handleDisconnect.
  destruct (findBySocket c (users st)) as [[i user]|] eqn:Hfind; simpl.
  - rewrite list_elem_of_filter. tauto.
  - split; [|tauto]. intros Hs. split; [done|].
    by apply (proj1 (list_find_absent _ _) Hfind).
Qed.

(** X4: the [id] of a session is the one it was registered with.  In a state
    with one session per username, a session found after an event under the
    name of a session that was there before has the same [id]: a reconnection
    overwrites the socket and nothing else. *)
Theorem X4_session_id_is_stable st ev s s' :
  unique_usernames st →
  s ∈ users st → s' ∈ users (step ev st) → username s' = username s →
  id s' = id s.
Proof.
  intros Hnd Hs Hs' Hname.
  assert (s' ∈ users st → id s' = id s) as Hsame.
  { intros Hin. by rewrite (unique_usernames_inj _ _ _ Hnd Hin Hs Hname). }
  destruct ev as [c|c r|c]; simpl in Hs'.
  - by apply Hsame.
  - destruct r; try (rewrite route_users in Hs' by done; by apply Hsame).
    revert Hs'. simpl. unfold handleRegister.
    destruct (findByUsername uname (users st)) as [[i e]|] eqn:Hfind.
    + pose proof Hfind as [Hi He]%list_find_elem.
      destruct (decide (socketId e ≠ c)); simpl; [|done].
      intros [k Hk]%list_elem_of_lookup.
      apply list_lookup_insert_Some in Hk as [(_ & <- & _)|[_ Hk]].
      * simpl in *. f_equal. symmetry.
        eapply unique_usernames_inj; [exact Hnd | done | | done].
        by eapply list_elem_of_lookup_2.
      * apply Hsame. by eapply list_elem_of_lookup_2.
    + simpl. rewrite elem_of_app, list_elem_of_singleton. intros [?| ->]; [auto|].
      exfalso. apply findByUsername_None in Hfind. apply Hfind.
      apply list_elem_of_fmap. exists s. by simpl in Hname.
  - apply handleDisconnect_users in Hs' as [Hin _]. by apply Hsame.
Qed.

Lemma X4_session_id_is_stable_witness :
  unique_usernames (run alice_then_bob initial)
  ∧ users (step (Message "c3" (Register "u9" "bob")) (run alice_then_bob initial))
      = [mkUser "u1" "alice" "c1"; mkUser "u2" "bob" "c3"]
  ∧ id (mkUser "u2" "bob" "c3") = id (mkUser "u2" "bob" "c2").
Proof.
  split_and!; [by_evaluation | reflexivity |].
  apply (X4_session_id_is_stable (run alice_then_bob initial)
           (Message "c3" (Register "u9" "bob"))); [by_evaluation.. | reflexivity].
Defined.

(** X5: a name leaves the directory only when a socket that owns a session of
    that name disconnects: no request, whatever its outcome, takes a username
    out of the list [handleGetUsers] replies. *)
Theorem X5_name_leaves_by_disconnect_only st ev u :
  u ∈ usernames st → u ∉ usernames (step ev st) →
  ∃ c s, ev = Disconnection c ∧ s ∈ users st ∧ username s = u ∧ socketId s = c.
Proof.
  intros Hin Hout. destruct ev as [c|c r|c]; simpl in Hout; [done| |].
  - exfalso. apply Hout. destruct r;
      try (unfold usernames; by rewrite route_users by done).
    simpl. rewrite handleRegister_usernames.
    destruct (decide _); [done|]. apply elem_of_app. by left.
  - unfold usernames in Hin. apply list_elem_of_fmap in Hin as (s & -> & Hs).
    exists c, s. split_and!; [done..|].
    destruct (decide (socketId s = c)) as [|Hne]; [done|]. exfalso. apply Hout.
    apply list_elem_of_fmap. exists s. split; [done|].
    by apply handleDisconnect_users.
Qed.

Lemma X5_name_leaves_by_disconnect_only_witness :
  "alice" ∈ usernames (run alice_then_bob initial)
  ∧ ("alice" ∉ usernames (step (Disconnection "c1") (run alice_then_bob initial)))
  ∧ ∃ c s, Disconnection "c1" = Disconnection c
           ∧ s ∈ users (run alice_then_bob initial)
           ∧ username s = "alice" ∧ socketId s = c.
Proof.
  split_and!; [by_evaluation | by_evaluation |].
  apply (X5_name_leaves_by_disconnect_only (run alice_then_bob initial)
           (Disconnection "c1") "alice"); by_evaluation.
Defined.

(** X6: after [handleRegister uid uname c], whatever it answered, a private
    message to [uname] from a registered caller is emitted to the room [c] and
    to no other: a reconnection redirects the messages of the name to the new
    socket. *)
Theorem X6_register_then_private_message uid uname c st message now caller i A :
  findBySocket caller (users (handleRegister uid uname c st).1.1) = Some (i, A) →
  handlePrivateMessage uname message now caller (handleRegister uid uname c st).1.1 =
    ((handleRegister uid uname c st).1.1, Ack true "Message sent",
     [Emit c "privateMessage" (PrivateMessageBody (username A) message now)]).
Proof.
  intros Hcaller.
  destruct (handleRegister_binds uid uname c st) as (j & B & Hfind & _ & Hsock).
  unfold handlePrivateMessage. by rewrite Hcaller, Hfind, Hsock.
Qed.

Lemma X6_register_then_private_message_witness :
  findBySocket "c1"
    (users (handleRegister "u9" "bob" "c3" (run alice_then_bob initial)).1.1)
    = Some (0, mkUser "u1" "alice" "c1")
  ∧ (handlePrivateMessage "bob" "hi" "t" "c1"
       (handleRegister "u9" "bob" "c3" (run alice_then_bob initial)).1.1).2
      = [Emit "c3" "privateMessage" (PrivateMessageBody "alice" "hi" "t")].
Proof.
  split; [reflexivity|].
  by rewrite (X6_register_then_private_message "u9" "bob" "c3"
                (run alice_then_bob initial) "hi" "t" "c1" 0
                (mkUser "u1" "alice" "c1") eq_refl).
Defined.

(** ** Disconnection and the other connections *)

(** The first match of [P] is not lost by filtering on a property it has. *)
Lemma list_find_filter_snd {A} (P Q : A → Prop)
    `{!∀ x, Decision (P x)} `{!∀ x, Decision (Q x)} (l : list A) :
  (∀ x, P x → Q x) →
  snd <$> list_find P (filter Q l) = snd <$> list_find P l.
Proof.
  intros HPQ. induction l as [|x l IH]; [done|].
  rewrite filter_cons. simpl. destruct (decide (P x)) as [HP|HnP].
  - rewrite decide_True by auto. simpl. by rewrite decide_True.
  - destruct (decide (Q x)); simpl.
    + rewrite decide_False by done.
      by destruct (list_find P (filter Q l)) as [[??]|], (list_find P l) as [[??]|];
        simplify_eq/=.
    + by destruct (list_find P (filter Q l)) as [[??]|], (list_find P l) as [[??]|];
        simplify_eq/=.
Qed.

Lemma findBySocket_after_disconnect c st :
  findBySocket c (users (handleDisconnect c st)) = None.
Proof.
  apply list_find_absent. intros s Hs. by apply handleDisconnect_users in Hs as [_ ?].
Qed.

(** X7: [handleDisconnect c] removes the sessions whose socket is [c] and no
    other: a session is in the array afterwards exactly when it was in it and
    its socket is not [c]; and for every other socket the lookup by socket
    finds the session it found before. *)
Theorem X7_disconnect_users c st :
  (∀ s, s ∈ users (handleDisconnect c st) ↔ s ∈ users st ∧ socketId s ≠ c)
  ∧ (∀ c', c' ≠ c →
       snd <$> findBySocket c' (users (handleDisconnect c st))
         = snd <$> findBySocket c' (users st)).
Proof.
  split; [apply handleDisconnect_users|].
  intros c' Hc'. unfold handleDisconnect.
  destruct (findBySocket c (users st)) as [[i user]|]; [|done]. simpl.
  apply list_find_filter_snd. intros x ->. done.
Qed.

(** X8: [handleDisconnect c] keeps the groups in place and does not add a
    member.  The group at each index keeps its name; its member list is a
    sublist of the former one; and a name that no session of [c] bears is a
    member afterwards exactly when it was before. *)
Theorem X8_disconnect_groups c st :
  groupNames (handleDisconnect c st) = groupNames st
  ∧ ∀ k g', groups (handleDisconnect c st) !! k = Some g' →
      ∃ g, groups st !! k = Some g
           ∧ name g' = name g
           ∧ members g' `sublist_of` members g
           ∧ ∀ v, (∀ s, s ∈ users st → socketId s = c → username s ≠ v) →
                  v ∈ members g' ↔ v ∈ members g.
Proof.
  unfold groupNames, handleDisconnect.
  destruct (findBySocket c (users st)) as [[i user]|] eqn:Hfind; simpl.
  - split; [by rewrite <-list_fmap_compose|].
    intros k g'. rewrite list_lookup_fmap.
    destruct (groups st !! k) as [g|]; [|done]. intros [= <-]. simpl.
    exists g. split_and!; [done | done | apply sublist_filter |].
    intros v Hv. unfold without. rewrite list_elem_of_filter.
    apply list_find_elem in Hfind as [Hi Hsock].
    assert (v ≠ username user); [|tauto].
    intros ->. eapply Hv; [|exact Hsock|done]. by eapply list_elem_of_lookup_2.
  - split; [done|]. intros k g' Hk. by exists g'.
Qed.

(** X9: disconnecting twice is disconnecting once. *)
Theorem X9_disconnect_idempotent c st :
  handleDisconnect c (handleDisconnect c st) = handleDisconnect c st.
Proof.
  unfold handleDisconnect at 1. by rewrite findBySocket_after_disconnect.
Qed.

Lemma route_without_session c r st :
  findBySocket c (users st) = None → needs_session r = true →
  route c r st = (st, Ack false "You are not registered", []).
Proof.
  intros Hnone Hr. destruct r; try discriminate Hr; simpl;
    unfold_handlers; by rewrite Hnone.
Qed.

(** X10: a socket that owns no session is refused every request that needs
    one (private message, join, leave, group message) with "You are not
    registered", and the request changes nothing and emits nothing; this is
    so for any socket once it has disconnected. *)
Theorem X10_requests_after_disconnect c r st :
  needs_session r = true →
  ((∀ s, s ∈ users st → socketId s ≠ c) →
     route c r st = (st, Ack false "You are not registered", []))
  ∧ route c r (handleDisconnect c st) =
      (handleDisconnect c st, Ack false "You are not registered", []).
Proof.
  intros Hr. split.
  - intros Hnone. apply route_without_session; [|done].
    by apply list_find_absent.
  - apply route_without_session; [|done]. apply findBySocket_after_disconnect.
Qed.

Lemma X10_requests_after_disconnect_witness :
  needs_session (GroupMessage "g" "hi" "t") = true
  ∧ route "c2" (GroupMessage "g" "hi" "t")
      (handleDisconnect "c2" (run bob_in_g initial))
    = (handleDisconnect "c2" (run bob_in_g initial),
       Ack false "You are not registered", []).
Proof.
  split; [reflexivity|].
  exact (proj2 (X10_requests_after_disconnect "c2" (GroupMessage "g" "hi" "t")
                  (run bob_in_g initial) eq_refl)).
Defined.

(** ** The registry of groups *)

Lemma findGroup_None g (gs : list Group) :
  findGroup g gs = None ↔ g ∉ name <$> gs.
Proof.
  unfold findGroup. rewrite list_find_absent, list_elem_of_fmap. split.
  - intros Hnone (grp & -> & Hgrp). by eapply Hnone.
  - intros Hnone grp Hgrp Hname. apply Hnone. by exists grp.
Qed.

Lemma handleLeaveGroup_groupNames g now c st :
  groupNames (handleLeaveGroup g now c st).1.1 = groupNames st.
Proof.
  unfold groupNames, handleLeaveGroup.
  destruct (findBySocket c (users st)) as [[i user]|]; [|done].
  destruct (findGroup g (groups st)) as [[j grp]|] eqn:Hg; [|done]. simpl.
  apply list_find_elem in Hg as [Hj _]. by apply fmap_name_update.
Qed.

Lemma handleDisconnect_groupNames c st :
  groupNames (handleDisconnect c st) = groupNames st.
Proof.
  unfold groupNames, handleDisconnect.
  destruct (findBySocket c (users st)) as [[i user]|]; [|done]. simpl.
  by rewrite <-list_fmap_compose.
Qed.

(** The names of the registry after a join. *)
Lemma handleJoinGroup_groupNames g now c st :
  groupNames (handleJoinGroup g now c st).1.1 =
    if decide (is_Some (findBySocket c (users st)) ∧ g ∉ groupNames st)
    then groupNames st ++ [g] else groupNames st.
Proof.
  unfold groupNames.
  destruct (findBySocket c (users st)) as [[i user]|] eqn:Hc.
  - rewrite (handleJoinGroup_groups _ _ _ _ _ _ Hc).
    destruct (decide (is_Some (Some (i, user)) ∧ g ∉ name <$> groups st))
      as [[_ Hout]|Hin].
    + apply findGroup_None in Hout. rewrite Hout. by rewrite fmap_app.
    + destruct (findGroup g (groups st)) as [[j grp]|] eqn:Hg.
      * apply list_find_elem in Hg as [Hj Hname].
        destruct (decide (username user ∈ members grp)); [done|].
        by apply fmap_name_update.
      * apply findGroup_None in Hg. destruct Hin. by split; [eexists|].
  - unfold handleJoinGroup. rewrite Hc. cbn [fst snd groups].
    by case_decide as Hd; [destruct Hd as [[? [=]] _]|].
Qed.

Lemma step_groupNames_cases ev st :
  groupNames (step ev st) = groupNames st
  ∨ ∃ c g now, ev = Message c (JoinGroup g now)
               ∧ is_Some (findBySocket c (users st))
               ∧ (g ∉ groupNames st)
               ∧ groupNames (step ev st) = groupNames st ++ [g].
Proof.
  destruct ev as [c|c r|c]; simpl.
  - by left.
  - destruct r; try (left; unfold groupNames; by rewrite route_groups by done).
    + simpl. rewrite handleJoinGroup_groupNames.
      destruct (decide _) as [[Hc Hg]|_]; [|by left].
      right. by exists c, groupName, now.
    + left. apply handleLeaveGroup_groupNames.
  - left. apply handleDisconnect_groupNames.
Qed.

Lemma reachable_unique_groupNames st : reachable st → NoDup (groupNames st).
Proof.
  induction 1 as [|st ev _ IH]; [apply NoDup_nil_2|].
  destruct (step_groupNames_cases ev st) as [->|(c & g & now & _ & _ & Hg & ->)];
    [done|].
  apply NoDup_app. split_and!; [done | | apply NoDup_singleton].
  intros x Hx ->%list_elem_of_singleton. done.
Qed.

(** X11: in every reachable state no two groups have the same name:
    [handleJoinGroup] pushes a group only when the lookup by name finds
    none. *)
Theorem X11_unique_group_names st : reachable st → NoDup (groupNames st).
Proof. apply reachable_unique_groupNames. Qed.

Lemma X11_unique_group_names_witness :
  reachable (run scenario initial) ∧ NoDup (groupNames (run scenario initial)).
Proof.
  assert (reachable (run scenario initial)) as Hreach.
  { apply reachable_run. constructor. }
  split; [exact Hreach | exact (X11_unique_group_names _ Hreach)].
Defined.

(** X12: a group comes into being in one way only.  An event either leaves
    the names of the registry as they are, or it is a [joinGroup] by a
    registered caller for a name the registry did not have, and then the name
    is pushed at the end. *)
Theorem X12_groups_created_by_join_only ev st :
  groupNames (step ev st) = groupNames st
  ∨ ∃ c g now, ev = Message c (JoinGroup g now)
               ∧ is_Some (findBySocket c (users st))
               ∧ (g ∉ groupNames st)
               ∧ groupNames (step ev st) = groupNames st ++ [g].
Proof. apply step_groupNames_cases. Qed.

(** ** Joining, leaving and sending, one after the other *)

Lemma handleJoinGroup_state g now c st i user :
  findBySocket c (users st) = Some (i, user) →
  (handleJoinGroup g now c st).1.1 =
    mkGateway (users st)
      match findGroup g (groups st) with
      | Some (j, group) =>
          if decide (username user ∈ members group) then groups st
          else <[j := mkGroup (name group) (members group ++ [username user])]> (groups st)
      | None => groups st ++ [mkGroup g [username user]]
      end.
Proof.
  intros Hc. rewrite <-(handleJoinGroup_groups g now c st i user Hc).
  rewrite <-(handleJoinGroup_users g now c st) at 1.
  by destruct (handleJoinGroup g now c st).1.1.
Qed.

Lemma without_pushed u (ms : list string) : without u (ms ++ [u]) = without u ms.
Proof.
  unfold without. rewrite filter_app, filter_cons_False by auto.
  by rewrite filter_nil, app_nil_r.
Qed.

(** X13: joining or leaving [g] leaves every other group alone: for a name
    [h] other than [g], the group lookup, and so [handleGetGroupDetails h],
    gives after the call what it gave before. *)
Theorem X13_join_leave_other_groups g h now c st :
  h ≠ g →
  findGroup h (groups (handleJoinGroup g now c st).1.1) = findGroup h (groups st)
  ∧ findGroup h (groups (handleLeaveGroup g now c st).1.1) = findGroup h (groups st)
  ∧ (handleGetGroupDetails h (handleJoinGroup g now c st).1.1).1.2
      = (handleGetGroupDetails h st).1.2
  ∧ (handleGetGroupDetails h (handleLeaveGroup g now c st).1.1).1.2
      = (handleGetGroupDetails h st).1.2.
Proof.
  intros Hne.
  assert (findGroup h (groups (handleJoinGroup g now c st).1.1)
            = findGroup h (groups st)) as Hjoin.
  { destruct (findBySocket c (users st)) as [[i user]|] eqn:Hc;
      [|by unfold handleJoinGroup; rewrite Hc].
    rewrite (handleJoinGroup_groups _ _ _ _ _ _ Hc).
    destruct (findGroup g (groups st)) as [[j grp]|] eqn:Hg.
    - destruct (decide _); [done|].
      apply list_find_elem in Hg as [Hj Hname].
      apply (list_find_insert_other _ _ _ grp); [done | |]; simpl; congruence.
    - apply list_find_push_other. simpl. congruence. }
  assert (findGroup h (groups (handleLeaveGroup g now c st).1.1)
            = findGroup h (groups st)) as Hleave.
  { unfold handleLeaveGroup.
    destruct (findBySocket c (users st)) as [[i user]|]; [|done].
    destruct (findGroup g (groups st)) as [[j grp]|] eqn:Hg; [|done]. simpl.
    apply list_find_elem in Hg as [Hj Hname].
    apply (list_find_insert_other _ _ _ grp); [done | |]; simpl; congruence. }
  split_and!; [done | done | |]; unfold handleGetGroupDetails.
  - rewrite Hjoin. by destruct (findGroup h (groups st)) as [[??]|].
  - rewrite Hleave. by destruct (findGroup h (groups st)) as [[??]|].
Qed.

Lemma X13_join_leave_other_groups_witness :
  "g" ≠ "h"
  ∧ findGroup "g" (groups (handleJoinGroup "h" "t" "c1" (run bob_in_g initial)).1.1)
      = Some (0, mkGroup "g" ["bob"]).
Proof.
  split; [done|].
  by rewrite (proj1 (X13_join_leave_other_groups "h" "g" "t" "c1"
                       (run bob_in_g initial) ltac:(done))).
Defined.

(** X14: a join of [g] followed at once by a leave of [g] by the same caller
    ends where the leave alone would have ended when the group was there, and
    with a new, empty group [g] at the end of the registry when it was not;
    the leave is acknowledged as a success in both cases. *)
Theorem X14_join_then_leave g now1 now2 c st i user :
  findBySocket c (users st) = Some (i, user) →
  let joined := (handleJoinGroup g now1 c st).1.1 in
  (handleLeaveGroup g now2 c joined).1.2 = Ack true "Left group successfully"
  ∧ (handleLeaveGroup g now2 c joined).1.1 =
      match findGroup g (groups st) with
      | Some _ => (handleLeaveGroup g now2 c st).1.1
      | None => mkGateway (users st) (groups st ++ [mkGroup g []])
      end.
Proof.
  intros Hc joined. subst joined.
  rewrite (handleJoinGroup_state g now1 c st i user Hc).
  unfold handleLeaveGroup. cbn [users groups]. rewrite Hc.
  destruct (findGroup g (groups st)) as [[j grp]|] eqn:Hg.
  - pose proof Hg as [Hj Hname]%list_find_elem.
    destruct (decide (username user ∈ members grp)); [by rewrite Hg|].
    unfold findGroup in *.
    rewrite (list_find_insert_same _ _ _ grp
               (mkGroup (name grp) (members grp ++ [username user])) Hg Hname).
    cbn [fst snd name members]. split; [done|].
    by rewrite list_insert_insert_eq, without_pushed.
  - unfold findGroup in *.
    rewrite (list_find_push _ _ (mkGroup g [username user]) Hg eq_refl).
    cbn [fst snd name members]. split; [done|].
    rewrite insert_pushed. do 4 f_equal.
    exact (without_pushed (username user) []).
Qed.

Lemma X14_join_then_leave_witness :
  findBySocket "c1" (users (run bob_in_g initial)) = Some (0, mkUser "u1" "alice" "c1")
  ∧ (handleLeaveGroup "g" "t2" "c1"
       (handleJoinGroup "g" "t1" "c1" (run bob_in_g initial)).1.1).1.1
      = run bob_in_g initial.
Proof.
  split; [reflexivity|].
  by rewrite (proj2 (X14_join_then_leave "g" "t1" "t2" "c1" (run bob_in_g initial)
                       0 (mkUser "u1" "alice" "c1") eq_refl)).
Defined.

(** X15: a registered caller who has just joined [g] can send to it: the
    group message that follows the join is published to the room of [g], from
    the caller's name, and acknowledged as a success. *)
Theorem X15_join_then_group_message g now1 message now2 c st i user :
  findBySocket c (users st) = Some (i, user) →
  let joined := (handleJoinGroup g now1 c st).1.1 in
  handleGroupMessage g message now2 c joined =
    (joined, Ack true "Group message sent",
     [Emit (roomOf g) "groupMessage"
        (GroupMessageBody g (username user) message now2)]).
Proof.
  intros Hc joined.
  destruct (handleJoinGroup_member g now1 c st i user Hc) as (j & grp & Hg & Hin & _).
  fold joined in Hg.
  assert (findBySocket c (users joined) = Some (i, user)) as Hc'.
  { unfold joined. by rewrite handleJoinGroup_users. }
  unfold handleGroupMessage. rewrite Hc', Hg. by rewrite decide_True.
Qed.

Lemma X15_join_then_group_message_witness :
  findBySocket "c1" (users (run bob_in_g initial)) = Some (0, mkUser "u1" "alice" "c1")
  ∧ (handleGroupMessage "g" "hi" "t2" "c1"
       (handleJoinGroup "g" "t1" "c1" (run bob_in_g initial)).1.1).1.2
      = Ack true "Group message sent".
Proof.
  split; [reflexivity|].
  by rewrite (X15_join_then_group_message "g" "t1" "hi" "t2" "c1"
                (run bob_in_g initial) 0 (mkUser "u1" "alice" "c1") eq_refl).
Defined.

(** X16: a registered caller who has just left [g] cannot send to it: the
    group message that follows the leave changes nothing, emits nothing and is
    refused, with "You are not a member of this group" when the group exists
    and with "Group not found" when it does not. *)
Theorem X16_leave_then_group_message g now1 message now2 c st i user :
  findBySocket c (users st) = Some (i, user) →
  let left := (handleLeaveGroup g now1 c st).1.1 in
  handleGroupMessage g message now2 c left =
    (left,
     Ack false (if decide (g ∈ groupNames st)
                then "You are not a member of this group" else "Group not found"),
     []).
Proof.
  intros Hc left. subst left. unfold handleLeaveGroup, handleGroupMessage.
  rewrite Hc.
  destruct (findGroup g (groups st)) as [[j grp]|] eqn:Hg; cbn [fst snd users groups].
  - rewrite Hc. pose proof Hg as [Hj Hname]%list_find_elem.
    unfold findGroup in *.
    rewrite (list_find_insert_same _ _ _ grp
               (mkGroup (name grp) (without (username user) (members grp))) Hg Hname).
    cbn [members]. rewrite (decide_False (P := _ ∈ without _ _)) by apply without_absent.
    rewrite decide_True; [done|].
    apply list_elem_of_fmap. exists grp. split; [done | by eapply list_elem_of_lookup_2].
  - rewrite Hc, Hg. apply findGroup_None in Hg. by rewrite decide_False.
Qed.

Lemma X16_leave_then_group_message_witness :
  findBySocket "c2" (users (run bob_in_g initial)) = Some (1, mkUser "u2" "bob" "c2")
  ∧ (handleGroupMessage "g" "hi" "t2" "c2"
       (handleLeaveGroup "g" "t1" "c2" (run bob_in_g initial)).1.1).1.2
      = Ack false "You are not a member of this group".
Proof.
  split; [reflexivity|].
  by rewrite (X16_leave_then_group_message "g" "t1" "hi" "t2" "c2"
                (run bob_in_g initial) 1 (mkUser "u2" "bob" "c2") eq_refl).
Defined.

(** ** The queries *)

Lemma fmap_NoDup_elem_eq {A B} (f : A → B) (l : list A) x y :
  NoDup (f <$> l) → x ∈ l → y ∈ l → f x = f y → x = y.
Proof.
  intros Hnd [i Hi]%list_elem_of_lookup [j Hj]%list_elem_of_lookup Heq.
  assert (i = j) as ->; [|congruence].
  eapply NoDup_lookup; [exact Hnd | |]; rewrite list_lookup_fmap.
  - by rewrite Hi.
  - by rewrite Hj, Heq.
Qed.

(** X17: the two group queries agree.  [handleGetGroupDetails g] answers
    "Group not found" exactly when [handleGetGroups] lists no group named [g];
    when it succeeds, the group it returns is named [g] and [handleGetGroups]
    lists [g] with the length of the returned member list; and in a reachable
    state that is the only count listed for [g]. *)
Theorem X17_group_queries_agree g st :
  ((handleGetGroupDetails g st).1.2 = Ack false "Group not found" ↔
     ∀ n, (g, n) ∉ (λ grp, (name grp, length (members grp))) <$> groups st)
  ∧ (handleGetGroups st).1.2 =
      GroupsReply ((λ grp, (name grp, length (members grp))) <$> groups st)
  ∧ (∀ details, (handleGetGroupDetails g st).1.2 = DetailsAck true details →
       name details = g
       ∧ (g, length (members details))
           ∈ (λ grp, (name grp, length (members grp))) <$> groups st
       ∧ (reachable st →
          ∀ n, (g, n) ∈ (λ grp, (name grp, length (members grp))) <$> groups st →
               n = length (members details))).
Proof.
  unfold handleGetGroupDetails.
  destruct (findGroup g (groups st)) as [[j grp]|] eqn:Hg; simpl.
  - apply list_find_elem in Hg as [Hj Hname].
    assert (grp ∈ groups st) as Hgrp by by eapply list_elem_of_lookup_2.
    split_and!; [|done|].
    + split; [done|]. intros Hnone. destruct (Hnone (length (members grp))).
      apply list_elem_of_fmap. exists grp. by rewrite Hname.
    + intros details [= <-]. simpl. split_and!; [done | |].
      * apply list_elem_of_fmap. exists grp. by rewrite Hname.
      * intros Hreach n (grp2 & [= Hname2 ->] & Hgrp2)%list_elem_of_fmap.
        f_equal. f_equal.
        apply (fmap_NoDup_elem_eq name (groups st));
          [by apply reachable_unique_groupNames | done | done | congruence].
  - apply findGroup_None in Hg. split_and!; [|done|done].
    split; [|done]. intros _ n (grp2 & [= Hname2 _] & Hgrp2)%list_elem_of_fmap.
    apply Hg. apply list_elem_of_fmap. by exists grp2.
Qed.

(** X18: for a registered caller, [handlePrivateMessage] answers "Recipient
    not found" exactly when [to] is not among the names [handleGetUsers]
    replies, and succeeds exactly when it is. *)
Theorem X18_recipient_found_iff_listed to message now c st i sender :
  findBySocket c (users st) = Some (i, sender) →
  (handleGetUsers st).1.2 = UsersReply (usernames st)
  ∧ ((handlePrivateMessage to message now c st).1.2 = Ack false "Recipient not found"
       ↔ to ∉ usernames st)
  ∧ ((handlePrivateMessage to message now c st).1.2 = Ack true "Message sent"
       ↔ to ∈ usernames st).
Proof.
  intros Hc. unfold handlePrivateMessage. rewrite Hc. split; [done|].
  destruct (findByUsername to (users st)) as [[j recipient]|] eqn:Hto; simpl.
  - assert (to ∈ usernames st) as Hin.
    { apply list_find_elem in Hto as [Hj Hname]. apply list_elem_of_fmap.
      exists recipient. split; [done | by eapply list_elem_of_lookup_2]. }
    split; split; done.
  - apply findByUsername_None in Hto. split; split; done.
Qed.

Lemma X18_recipient_found_iff_listed_witness :
  findBySocket "c1" (users (run alice_then_bob initial))
    = Some (0, mkUser "u1" "alice" "c1")
  ∧ (handlePrivateMessage "carol" "hi" "t" "c1" (run alice_then_bob initial)).1.2
      = Ack false "Recipient not found".
Proof.
  split; [reflexivity|].
  apply (X18_recipient_found_iff_listed "carol" "hi" "t" "c1"
           (run alice_then_bob initial) 0 (mkUser "u1" "alice" "c1") eq_refl).
  by_evaluation.
Defined.

(** X19: which event writes where.  The users array is changed only by a
    [register] request or by a disconnection; the groups array only by a
    [joinGroup] or [leaveGroup] request or by a disconnection; so a
    connection, the two message requests and the three queries return the
    state they were given. *)
Theorem X19_event_frame ev st :
  (users (step ev st) = users st
   ∨ (∃ c uid uname, ev = Message c (Register uid uname))
   ∨ (∃ c, ev = Disconnection c))
  ∧ (groups (step ev st) = groups st
     ∨ (∃ c g now, ev = Message c (JoinGroup g now))
     ∨ (∃ c g now, ev = Message c (LeaveGroup g now))
     ∨ (∃ c, ev = Disconnection c))
  ∧ (match ev with
     | Connection _
     | Message _ (PrivateMessage _ _ _ | GroupMessage _ _ _
                  | GetUsers | GetGroups | GetGroupDetails _) => step ev st = st
     | Message _ (Register _ _ | JoinGroup _ _ | LeaveGroup _ _)
     | Disconnection _ => True
     end).
Proof.
  split_and!.
  - destruct ev as [c|c r|c]; [by left | | right; right; eauto].
    destruct r; try (left; by apply route_users); right; left; eauto.
  - destruct ev as [c|c r|c]; [by left | | right; right; right; eauto].
    destruct r; try (left; by apply route_groups); right; eauto 6.
  - destruct ev as [c|c r|c]; [done | | done].
    destruct r; try done; simpl; unfold_handlers; by split_lookups.
Qed.

(** X20: the reply of a successful join is what [handleGetGroupDetails]
    returns for the group right after it: the group is named as asked and its
    members are the list the join returned, the caller among them. *)
Theorem X20_join_reply_is_group_details g now c st i user :
  findBySocket c (users st) = Some (i, user) →
  ∃ ms, (handleJoinGroup g now c st).1.2 = JoinAck true "Joined group successfully" ms
        ∧ username user ∈ ms
        ∧ (handleGetGroupDetails g (handleJoinGroup g now c st).1.1).1.2
            = DetailsAck true (mkGroup g ms).
Proof.
  intros Hc.
  destruct (handleJoinGroup_member g now c st i user Hc) as (j & grp & Hg & Hin & Hreply).
  exists (members grp). split_and!; [done..|].
  unfold handleGetGroupDetails. rewrite Hg. simpl.
  apply list_find_elem in Hg as [_ Hname]. by rewrite Hname.
Qed.

Lemma X20_join_reply_is_group_details_witness :
  findBySocket "c1" (users (run bob_in_g initial)) = Some (0, mkUser "u1" "alice" "c1")
  ∧ ∃ ms, (handleJoinGroup "g" "t" "c1" (run bob_in_g initial)).1.2
            = JoinAck true "Joined group successfully" ms
          ∧ "alice" ∈ ms
          ∧ (handleGetGroupDetails "g"
               (handleJoinGroup "g" "t" "c1" (run bob_in_g initial)).1.1).1.2
              = DetailsAck true (mkGroup "g" ms).
Proof.
  split; [reflexivity|].
  exact (X20_join_reply_is_group_details "g" "t" "c1" (run bob_in_g initial)
           0 (mkUser "u1" "alice" "c1") eq_refl).
Defined.

Lemma without_length u (ms : list string) :
  NoDup ms → u ∈ ms → S (length (without u ms)) = length ms.
Proof.
  unfold without. induction 1 as [|m ms Hm Hnd IH]; [by intros ?%elem_of_nil|].
  intros [->|Hin]%elem_of_cons.
  - rewrite filter_cons_False by auto.
    fold (without m ms). by rewrite without_not_member.
  - rewrite filter_cons_True by (intros ->; done).
    rewrite !length_cons. by rewrite IH.
Qed.

(** X21: in a reachable state a member who leaves takes the count of the
    group down by exactly one: the member list has no name twice, so the
    filter of [handleLeaveGroup] drops one entry. *)
Theorem X21_leave_drops_one_member g now c st i user j grp :
  reachable st →
  findBySocket c (users st) = Some (i, user) →
  findGroup g (groups st) = Some (j, grp) →
  username user ∈ members grp →
  ∃ grp', groups (handleLeaveGroup g now c st).1.1 !! j = Some grp'
          ∧ name grp' = name grp
          ∧ S (length (members grp')) = length (members grp).
Proof.
  intros Hreach Hc Hg Hin. unfold handleLeaveGroup. rewrite Hc, Hg. simpl.
  apply list_find_elem in Hg as [Hj _].
  eexists. split_and!.
  - apply list_lookup_insert_eq. by eapply lookup_lt_Some.
  - done.
  - simpl. apply without_length; [|done].
    by eapply (Forall_lookup_1 _ _ _ _ (reachable_no_duplicate_members st Hreach)).
Qed.

Lemma X21_leave_drops_one_member_witness :
  reachable (run bob_in_g initial)
  ∧ ∃ grp', groups (handleLeaveGroup "g" "t" "c2" (run bob_in_g initial)).1.1 !! 0
              = Some grp'
            ∧ name grp' = "g"
            ∧ S (length (members grp')) = 1.
Proof.
  assert (reachable (run bob_in_g initial)) as Hreach.
  { apply reachable_run. constructor. }
  split; [exact Hreach|].
  refine (X21_leave_drops_one_member "g" "t" "c2" (run bob_in_g initial)
            1 (mkUser "u2" "bob" "c2") 0 (mkGroup "g" ["bob"]) Hreach eq_refl eq_refl _).
  by_evaluation.
Defined.

(** ** Membership goes with the name *)

Lemma findBySocket_None c (us : list User) :
  findBySocket c us = None ↔ ∀ s, s ∈ us → socketId s ≠ c.
Proof. apply list_find_absent. Qed.

(** A socket without a session that registers [uname] is from then on the
    socket of the session named [uname], and of no other. *)
Lemma handleRegister_fresh_socket uid uname c st :
  findBySocket c (users st) = None →
  ∃ i s, findBySocket c (users (handleRegister uid uname c st).1.1) = Some (i, s)
         ∧ username s = uname.
Proof.
  intros Hnone. unfold handleRegister.
  destruct (findByUsername uname (users st)) as [[i e]|] eqn:Hfind.
  - pose proof Hfind as [Hi Hname]%list_find_elem.
    assert (socketId e ≠ c) as Hne.
    { apply (proj1 (findBySocket_None _ _) Hnone). by eapply list_elem_of_lookup_2. }
    rewrite decide_True by done. cbn [fst snd users].
    exists i, (mkUser (id e) (username e) c). split; [|done].
    apply list_find_Some. split_and!.
    + apply list_lookup_insert_eq. by eapply lookup_lt_Some.
    + done.
    + intros k z Hk Hlt. rewrite list_lookup_insert_ne in Hk by lia.
      apply (proj1 (findBySocket_None _ _) Hnone). by eapply list_elem_of_lookup_2.
  - cbn [fst snd users]. exists (length (users st)), (mkUser uid uname c).
    split; [|done]. by apply list_find_push.
Qed.

(** X22: membership is kept by name, not by session.  When a socket that has
    no session registers a name that is in the member list of [g] (a
    reconnection, or a new session under a name left behind), it can send to
    [g] at once, without joining: the message is published to the room of [g]
    from that name. *)
Theorem X22_membership_goes_with_the_name uid uname c st g j grp message now :
  findBySocket c (users st) = None →
  findGroup g (groups st) = Some (j, grp) →
  uname ∈ members grp →
  handleGroupMessage g message now c (handleRegister uid uname c st).1.1 =
    ((handleRegister uid uname c st).1.1, Ack true "Group message sent",
     [Emit (roomOf g) "groupMessage" (GroupMessageBody g uname message now)]).
Proof.
  intros Hnone Hg Hin.
  destruct (handleRegister_fresh_socket uid uname c st Hnone) as (i & s & Hc & Hname).
  assert (groups (handleRegister uid uname c st).1.1 = groups st) as Hgroups.
  { unfold handleRegister. by split_lookups. }
  unfold handleGroupMessage. rewrite Hc, Hgroups, Hg, Hname.
  by rewrite decide_True.
Qed.

Lemma X22_membership_goes_with_the_name_witness :
  findBySocket "c9" (users (run bob_in_g initial)) = None
  ∧ findGroup "g" (groups (run bob_in_g initial)) = Some (0, mkGroup "g" ["bob"])
  ∧ "bob" ∈ members (mkGroup "g" ["bob"])
  ∧ (handleGroupMessage "g" "hi" "t" "c9"
       (handleRegister "u9" "bob" "c9" (run bob_in_g initial)).1.1).2
      = [Emit "group:g" "groupMessage" (GroupMessageBody "g" "bob" "hi" "t")].
Proof.
  assert ("bob" ∈ members (mkGroup "g" ["bob"])) as Hin by by_evaluation.
  split_and!; [reflexivity | reflexivity | exact Hin |].
  by rewrite (X22_membership_goes_with_the_name "u9" "bob" "c9" (run bob_in_g initial)
                "g" 0 (mkGroup "g" ["bob"]) "hi" "t" eq_refl eq_refl Hin).
Defined.

(** ** Where the effects go *)

(** X23: a handler issues effects for the caller and the rooms at hand only.
    Every [emit] is either a "privateMessage" to the socket of a session of
    the directory, or goes to the room of a group that is in the registry
    after the call; every [join] and [leave] is done on the caller's own
    socket, for the room of such a group. *)
Theorem X23_effects_are_addressed c r st e :
  e ∈ (route c r st).2 →
  match e with
  | Emit room event _ =>
      (event = "privateMessage" ∧ ∃ s, s ∈ users st ∧ socketId s = room)
      ∨ (∃ g, g ∈ groupNames (route c r st).1.1 ∧ room = roomOf g)
  | Join client room | Leave client room =>
      client = c ∧ ∃ g, g ∈ groupNames (route c r st).1.1 ∧ room = roomOf g
  end.
Proof.
  destruct r; simpl.
  - unfold handleRegister. split_lookups; by intros ?%elem_of_nil.
  - unfold handlePrivateMessage.
    destruct (findBySocket c (users st)) as [[i sender]|]; [|by intros ?%elem_of_nil].
    destruct (findByUsername to (users st)) as [[j recipient]|] eqn:Hto;
      [|by intros ?%elem_of_nil].
    simpl. intros ->%list_elem_of_singleton. left. split; [done|].
    exists recipient. split; [|done].
    apply list_find_elem in Hto as [Hj _]. by eapply list_elem_of_lookup_2.
  - destruct (findBySocket c (users st)) as [[i user]|] eqn:Hc.
    + assert (groupName ∈ groupNames (handleJoinGroup groupName now c st).1.1) as Hg.
      { destruct (handleJoinGroup_member groupName now c st i user Hc)
          as (j & grp & [Hj Hname]%list_find_elem & _).
        apply list_elem_of_fmap. exists grp.
        split; [done | by eapply list_elem_of_lookup_2]. }
      revert Hg. unfold handleJoinGroup at 2. rewrite Hc.
      destruct (findGroup groupName (groups st)) as [[j grp]|]; simpl;
        intros Hg [->|[->|?%elem_of_nil]%elem_of_cons]%elem_of_cons; try done;
        try (right; by exists groupName); split; [done | by exists groupName | done
                                                   | by exists groupName].
    + unfold handleJoinGroup. rewrite Hc. by intros ?%elem_of_nil.
  - pose proof (handleLeaveGroup_groupNames groupName now c st) as Hnames.
    revert Hnames. unfold handleLeaveGroup.
    destruct (findBySocket c (users st)) as [[i user]|]; [|by intros _ ?%elem_of_nil].
    destruct (findGroup groupName (groups st)) as [[j grp]|] eqn:Hg;
      [|by intros _ ?%elem_of_nil].
    cbn [fst snd]. intros ->.
    assert (groupName ∈ groupNames st) as Hin.
    { apply list_find_elem in Hg as [Hj Hname]. apply list_elem_of_fmap.
      exists grp. split; [done | by eapply list_elem_of_lookup_2]. }
    intros [->|[->|?%elem_of_nil]%elem_of_cons]%elem_of_cons; try done.
    + split; [done | by exists groupName].
    + right. by exists groupName.
  - unfold handleGroupMessage.
    destruct (findBySocket c (users st)) as [[i sender]|]; [|by intros ?%elem_of_nil].
    destruct (findGroup group (groups st)) as [[j grp]|] eqn:Hg;
      [|by intros ?%elem_of_nil].
    destruct (decide _); [|by intros ?%elem_of_nil].
    simpl. intros ->%list_elem_of_singleton. right. exists group. split; [|done].
    apply list_find_elem in Hg as [Hj Hname]. apply list_elem_of_fmap.
    exists grp. split; [done | by eapply list_elem_of_lookup_2].
  - by intros ?%elem_of_nil.
  - by intros ?%elem_of_nil.
  - unfold handleGetGroupDetails. split_lookups; by intros ?%elem_of_nil.
Qed.

Lemma X23_effects_are_addressed_witness :
  Join "c1" "group:h" ∈ (route "c1" (JoinGroup "h" "t") (run bob_in_g initial)).2
  ∧ "c1" = "c1"
  ∧ ∃ g, g ∈ groupNames (route "c1" (JoinGroup "h" "t") (run bob_in_g initial)).1.1
         ∧ "group:h" = roomOf g.
Proof.
  assert (Join "c1" "group:h"
            ∈ (route "c1" (JoinGroup "h" "t") (run bob_in_g initial)).2) as Hin.
  { apply list_elem_of_lookup. by exists 0. }
  split; [exact Hin|].
  exact (X23_effects_are_addressed "c1" (JoinGroup "h" "t") (run bob_in_g initial)
           (Join "c1" "group:h") Hin).
Defined.

(** ** The user id *)

Lemma substring_length n m (s : string) :
  String.length (String.substring n m s) = Nat.min m (String.length s - n).
Proof.
  revert n m. induction s as [|ch s IH]; intros [|n] [|m]; simpl; try done.
  by rewrite IH, Nat.sub_0_r.
Qed.

(** X24: [generateUserId] returns the characters of the random string from
    position 2 on, thirteen at the most: the character at position [p < 13]
    of the id is the one at position [p + 2] of the random string, the length
    of the id is the smaller of 13 and what is left after two characters, and
    a random string of two characters or fewer (such as "0") gives the empty
    id. *)
Theorem X24_generateUserId_shape random36 :
  String.length (generateUserId random36) = Nat.min 13 (String.length random36 - 2)
  ∧ (∀ p, (p < 13)%nat →
          String.get p (generateUserId random36) = String.get (p + 2) random36)
  ∧ ((String.length random36 ≤ 2)%nat → generateUserId random36 = "").
Proof.
  unfold generateUserId. split_and!.
  - apply substring_length.
  - intros p Hp. by apply String.substring_correct1.
  - intros Hshort.
    assert (String.length (String.substring 2 13 random36) = 0) as Hlen.
    { rewrite substring_length. lia. }
    by destruct (String.substring 2 13 random36).
Qed.

(** ** Taking a name over *)

(** X25: a name can be taken over from any other socket.  In a state with
    one session per username, when [uname] is the name of the only session of
    the socket [old], a registration of [uname] from another socket [c] is
    acknowledged with "Reconnected successfully"; afterwards [old] owns no
    session, so its requests that need one are refused, and its
    disconnection, when it comes, changes nothing: the session now at [c]
    stays. *)
Theorem X25_takeover_evicts_old_socket uid uname c old st s :
  unique_usernames st →
  s ∈ users st → username s = uname → socketId s = old → old ≠ c →
  (∀ s', s' ∈ users st → socketId s' = old → s' = s) →
  let taken := (handleRegister uid uname c st).1.1 in
  (handleRegister uid uname c st).1.2 = Ack true "Reconnected successfully"
  ∧ findBySocket old (users taken) = None
  ∧ (∀ r, needs_session r = true →
          route old r taken = (taken, Ack false "You are not registered", []))
  ∧ handleDisconnect old taken = taken
  ∧ mkUser (id s) uname c ∈ users taken.
Proof.
  intros Hnd Hs Hname Hold Hne Honly taken.
  destruct (findByUsername_unique _ _ Hnd Hs) as [i Hfind].
  rewrite Hname in Hfind.
  assert (socketId s ≠ c) as Hsock by congruence.
  assert (users taken = <[i := mkUser (id s) (username s) c]> (users st)
          ∧ (handleRegister uid uname c st).1.2 = Ack true "Reconnected successfully")
    as [Husers Hack].
  { unfold taken, handleRegister. rewrite Hfind. by rewrite decide_True. }
  apply list_find_elem in Hfind as [Hi _].
  assert (findBySocket old (users taken) = None) as Hnone.
  { apply list_find_absent. rewrite Husers. intros x [k Hk]%list_elem_of_lookup.
    apply list_lookup_insert_Some in Hk as [(_ & <- & _)|[Hki Hk]]; [simpl; congruence|].
    intros Hx. apply Hki.
    assert (x = s) as -> by (apply Honly; [by eapply list_elem_of_lookup_2 | done]).
    eapply NoDup_lookup; [exact Hnd | |]; rewrite list_lookup_fmap.
    - by rewrite Hi.
    - by rewrite Hk. }
  split_and!; [done | done | | |].
  - intros r Hr. by apply route_without_session.
  - unfold handleDisconnect. by rewrite Hnone.
  - rewrite Husers, Hname. apply list_elem_of_insert. by eapply lookup_lt_Some.
Qed.

Lemma X25_takeover_evicts_old_socket_witness :
  unique_usernames (run alice_then_bob initial)
  ∧ findBySocket "c2"
      (users (handleRegister "u9" "bob" "c3" (run alice_then_bob initial)).1.1) = None
  ∧ mkUser "u2" "bob" "c3"
      ∈ users (handleRegister "u9" "bob" "c3" (run alice_then_bob initial)).1.1.
Proof.
  assert (unique_usernames (run alice_then_bob initial)) as Hnd by by_evaluation.
  destruct (X25_takeover_evicts_old_socket "u9" "bob" "c3" "c2"
              (run alice_then_bob initial) (mkUser "u2" "bob" "c2") Hnd)
    as (_ & Hnone & _ & _ & Hin); [by_evaluation | done | done | done | |done].
  intros s' Hs' Hsock.
  apply list_elem_of_lookup in Hs' as [[|[|[|k]]] Hk]; simplify_eq/=; done.
Defined.
